(** * Aggregation of ICAR per-tile output files: a shallow embedding

    This development embeds [helpers/aggregate_parallel_files.py] and settles
    the properties its specification states about it.  The Python functions
    [get_dims], [get_dim_offset], [set_up_dataset] and [agg_file] are
    translated one by one, together with the parts of numpy (basic slicing,
    slice assignment with broadcasting, [np.zeros]) and of xarray (datasets,
    variables, attribute dictionaries, dimension sizes) they rely on. *)

From Stdlib Require Import ZArith QArith_base Ascii String List Lia.
From stdpp Require Import base tactics option list gmap strings sorting.

Open Scope string_scope.
Open Scope Z_scope.

(** ** Python results: a value or a raised exception

    An exception is identified by the name of its class. *)

Definition exn := string.

Inductive result (A : Type) : Type :=
| Ok (a : A)
| Raise (e : exn).

Arguments Ok {A} a.
Arguments Raise {A} e.

#[global] Instance result_ret : MRet result := λ A a, Ok a.

#[global] Instance result_bind : MBind result := λ A B k r,
  match r with
  | Ok a => k a
  | Raise e => Raise e
  end.

#[global] Instance result_fmap : FMap result := λ A B f r,
  match r with
  | Ok a => Ok (f a)
  | Raise e => Raise e
  end.

Definition raises {A} (r : result A) : Prop := ∃ e, r = Raise e.

(** [for x in xs: acc = body(acc, x)], stopping at the first exception. *)
Fixpoint for_each {A S} (xs : list A) (body : S → A → result S) (acc : S)
  : result S :=
  match xs with
  | [] => Ok acc
  | x :: rest => acc' ← body acc x; for_each rest body acc'
  end.

(** [[f(x) for x in xs]], stopping at the first exception. *)
Fixpoint map_result {A B} (f : A → result B) (xs : list A) : result (list B) :=
  match xs with
  | [] => Ok []
  | x :: rest => y ← f x; ys ← map_result f rest; Ok (y :: ys)
  end.

(** ** Attribute values and Python's [int()] *)

(** The value of a netCDF attribute as xarray hands it over.  The program
    does one thing with such a value: it passes it to [int()].  For an
    integer and for a float the result of [int()] is modelled.  Any other
    value (a string, an array, ...) is kept as its printed form together with
    what [int()] does with it, which the tables of the interpreter decide
    (the digits and the white space of Unicode for a string, the number of
    elements for an array): a value or the exception raised. *)
Inductive attr_value : Type :=
| AInt (z : Z)
| AFloat (q : Q)
| ANaN
| AInf (negative : bool)
| AOther (repr : string) (as_int : result Z).

(** [int(x)]: identity on integers, truncation toward zero on finite floats;
    [ValueError] for a NaN and [OverflowError] for an infinity. *)
Definition py_int (a : attr_value) : result Z :=
  match a with
  | AInt z => Ok z
  | AFloat q => Ok (Z.quot (Qnum q) (Z.pos (Qden q)))
  | ANaN => Raise "ValueError"
  | AInf _ => Raise "OverflowError"
  | AOther _ as_int => as_int
  end.

(** ** numpy arrays *)

Class Dtype (val : Type) := zero : val.

Section Model.

Context {val : Type} `{!Dtype val}.

(** An array is its shape and its cells in row-major order. *)
Record ndarray : Type := NdArray {
  shape : list nat;
  cells : list val
}.

Definition size_of (sh : list nat) : nat := foldr Nat.mul 1%nat sh.

(** Position of a multi-index in the row-major buffer. *)
Fixpoint ravel (sh idx : list nat) : nat :=
  match sh, idx with
  | _ :: sh', i :: idx' => (i * size_of sh' + ravel sh' idx')%nat
  | _, _ => 0%nat
  end.

(** All multi-indices of a shape, in row-major order. *)
Fixpoint indices (sh : list nat) : list (list nat) :=
  match sh with
  | [] => [[]]
  | n :: sh' => i ← seq 0 n; (i ::.) <$> indices sh'
  end.

Definition tabulate (sh : list nat) (f : list nat → val) : ndarray :=
  NdArray sh (f <$> indices sh).

Fixpoint in_bounds (sh idx : list nat) : bool :=
  match sh, idx with
  | [], [] => true
  | n :: sh', i :: idx' => (Nat.ltb i n && in_bounds sh' idx')%bool
  | _, _ => false
  end.

(** [a[idx]] for a full multi-index within bounds (and [zero] outside, where
    numpy raises; the model never reads there). *)
Definition item (a : ndarray) (idx : list nat) : val :=
  if in_bounds (shape a) idx
  then default zero (cells a !! ravel (shape a) idx)
  else zero.

Definition wf_array (a : ndarray) : Prop :=
  length (cells a) = size_of (shape a).

(** [np.zeros(sh)]: a negative dimension is refused. *)
Definition np_zeros (sh : list Z) : result ndarray :=
  if forallb (Z.leb 0) sh
  then Ok (tabulate (Z.to_nat <$> sh) (λ _, zero))
  else Raise "ValueError".

(** *** Basic slicing

    A slice [start:stop] (step 1); [None] is an omitted bound, so that
    [(None, None)] is the full slice [:]. *)
Definition slice : Type := option Z * option Z.

Definition full : slice := (None, None).
Definition from_to (start stop : Z) : slice := (Some start, Some stop).

(** A bound of a slice on an axis of length [n], as [slice.indices] gives
    it: a negative bound counts from the end, and bounds are clipped to
    the axis. *)
Definition slice_bound (n : nat) (dflt : Z) (b : option Z) : Z :=
  match b with
  | None => dflt
  | Some z =>
      if z <? 0 then Z.max (z + Z.of_nat n) 0 else Z.min z (Z.of_nat n)
  end.

(** First position and length of the part of the axis a slice selects. *)
Definition slice_range (n : nat) (s : slice) : nat * nat :=
  let start := slice_bound n 0 s.1 in
  let stop := slice_bound n (Z.of_nat n) s.2 in
  (Z.to_nat start, Z.to_nat (stop - start)).

(** The box selected by a tuple of slices; axes without a slice are taken
    whole. *)
Fixpoint region (sh : list nat) (sl : list slice) : list (nat * nat) :=
  match sh with
  | [] => []
  | n :: sh' =>
      match sl with
      | [] => (0%nat, n) :: region sh' []
      | s :: sl' => slice_range n s :: region sh' sl'
      end
  end.

Fixpoint in_region (r : list (nat * nat)) (idx : list nat) : bool :=
  match r, idx with
  | [], [] => true
  | (lo, len) :: r', i :: idx' =>
      (Nat.leb lo i && Nat.ltb i (lo + len) && in_region r' idx')%bool
  | _, _ => false
  end.

(** [a[sl]] with a tuple of slices: the selected box as a new array. *)
Definition getitem (a : ndarray) (sl : list slice) : result ndarray :=
  if Nat.ltb (length (shape a)) (length sl) then Raise "IndexError"
  else
    let r := region (shape a) sl in
    Ok (tabulate (r.*2) (λ idx, item a (zip_with Nat.add (r.*1) idx))).

(** *** Broadcasting

    Shapes are aligned at their last axis; an axis of the value has the
    length of the target's axis or length 1, and the value's extra leading
    axes have length 1. *)
Fixpoint bcast_ok_rev (v t : list nat) : bool :=
  match v, t with
  | [], _ => true
  | a :: v', [] => (Nat.eqb a 1 && bcast_ok_rev v' [])%bool
  | a :: v', b :: t' => ((Nat.eqb a b || Nat.eqb a 1) && bcast_ok_rev v' t')%bool
  end.

Definition bcast_ok (v t : list nat) : bool := bcast_ok_rev (rev v) (rev t).

(** The cell of the value that is written at a position of the target. *)
Fixpoint bcast_index_rev (v idx : list nat) : list nat :=
  match v with
  | [] => []
  | a :: v' =>
      match idx with
      | [] => 0%nat :: bcast_index_rev v' []
      | i :: idx' => (if Nat.eqb a 1 then 0%nat else i) :: bcast_index_rev v' idx'
      end
  end.

Definition bcast_index (v idx : list nat) : list nat :=
  rev (bcast_index_rev (rev v) (rev idx)).

(** [a[sl] = v]: the box is overwritten with [v] broadcast to its shape; the
    other cells keep their value. *)
Definition setitem (a : ndarray) (sl : list slice) (v : ndarray)
  : result ndarray :=
  if Nat.ltb (length (shape a)) (length sl) then Raise "IndexError"
  else
    let r := region (shape a) sl in
    if bcast_ok (shape v) (r.*2)
    then Ok (tabulate (shape a) (λ idx,
               if in_region r idx
               then item v (bcast_index (shape v) (zip_with Nat.sub idx (r.*1)))
               else item a idx))
    else Raise "ValueError".

End Model.

Arguments ndarray val : clear implicits.

(** ** xarray datasets *)

Section Datasets.

Context {val : Type} `{!Dtype val}.

(** First value bound to a key in a list of bindings. *)
Fixpoint assoc {A} (k : string) (l : list (string * A)) : option A :=
  match l with
  | [] => None
  | (k', a) :: l' => if String.eqb k k' then Some a else assoc k l'
  end.

(** [m[k] = a] on an insertion-ordered dict: a known key keeps its place. *)
Fixpoint dict_set {A} (k : string) (a : A) (l : list (string * A))
  : list (string * A) :=
  match l with
  | [] => [(k, a)]
  | (k', a') :: l' =>
      if String.eqb k k' then (k, a) :: l' else (k', a') :: dict_set k a l'
  end.

(** A variable of a dataset ([d[v]]): its dimension names, its attributes
    and its array. *)
Record data_array : Type := DataArray {
  da_dims : list string;
  da_attrs : gmap string attr_value;
  da_values : ndarray val
}.

(** A dataset: global attributes and the variables by name, in the order
    of the file; the names are the keys of a dict, hence distinct. *)
Record dataset : Type := Dataset {
  ds_attrs : gmap string attr_value;
  ds_variables : list (string * data_array)
}.

Definition dim_sizes (a : data_array) : list (string * nat) :=
  zip (da_dims a) (shape (da_values a)).

Definition dim_table (vars : list (string * data_array)) : list (string * nat) :=
  concat (dim_sizes <$> vars.*2).

(** [d.dims[name]]: the size of a dimension of the dataset. *)
Definition ds_dims (d : dataset) (name : string) : result nat :=
  match assoc name (dim_table (ds_variables d)) with
  | Some n => Ok n
  | None => Raise "KeyError"
  end.

(** [xr.DataArray(data, dims=dims, attrs=attrs)]: one name per axis. *)
Definition new_data_array (data : ndarray val) (dims : list string)
    (attrs : gmap string attr_value) : result data_array :=
  if Nat.eqb (length (shape data)) (length dims)
  then Ok (DataArray dims attrs data)
  else Raise "ValueError".

(** A dimension has one size throughout a dataset. *)
Definition consistent_sizes (vars : list (string * data_array)) : bool :=
  let table := dim_table vars in
  forallb (λ '(name, n),
    match assoc name table with
    | Some n' => Nat.eqb n n'
    | None => false
    end) table.

(** [xr.Dataset(data_vars, attrs=attrs)]. *)
Definition new_dataset (data_vars : list (string * data_array))
    (attrs : gmap string attr_value) : result dataset :=
  if consistent_sizes data_vars
  then Ok (Dataset attrs data_vars)
  else Raise "ValueError".

(** [data_set[v]]. *)
Definition ds_get (d : dataset) (v : string) : result data_array :=
  match assoc v (ds_variables d) with
  | Some a => Ok a
  | None => Raise "KeyError"
  end.

(** ** The program *)

(** [dataset.attrs[key]]. *)
Definition attrs_get (d : dataset) (key : string) : result attr_value :=
  match ds_attrs d !! key with
  | Some a => Ok a
  | None => Raise "KeyError"
  end.

Definition extent : Type := Z * Z * Z * Z * Z * Z.

(** The names of the six attributes of a section, in the order of the two
    nested loops of [get_dims]. *)
Definition get_dims_keys (section : string) : list string :=
  axis ← ["i"; "j"; "k"];
  position ← ["s"; "e"];
  [axis +:+ section +:+ position].

Definition get_dims (d : dataset) (section : string) : result (list Z) :=
  map_result (λ key, a ← attrs_get d key; py_int a) (get_dims_keys section).

(** The unpacking [a, b, c, d, e, f = get_dims(...)] of the callers. *)
Definition unpack6 (l : list Z) : result extent :=
  match l with
  | [a; b; c; d; e; f] => Ok (a, b, c, d, e, f)
  | _ => Raise "ValueError"
  end.

Definition get_extent (d : dataset) (section : string) : result extent :=
  l ← get_dims d section; unpack6 l.

Definition get_dim_offset (dims : list string) : Z * Z :=
  let x_off := if bool_decide ("lon_u" ∈ dims) then 1 else 0 in
  let y_off := if bool_decide ("lat_v" ∈ dims) then 1 else 0 in
  (x_off, y_off).

(** [dims[i]]. *)
Definition dim_name (dims : list string) (i : nat) : result string :=
  match dims !! i with
  | Some s => Ok s
  | None => Raise "IndexError"
  end.

(** The local variable [data] of [set_up_dataset] is unbound until the
    first variable of rank 2, 3 or 4 has been seen. *)
Definition read_local (data : option (ndarray val)) : result (ndarray val) :=
  match data with
  | Some a => Ok a
  | None => Raise "UnboundLocalError"
  end.

(** The state of the loop of [set_up_dataset]: the locals [nz] and [data]
    and the dict [data_vars]. *)
Definition setup_state : Type :=
  Z * option (ndarray val) * list (string * data_array).

Definition set_up_variable (d : dataset) (nx ny : Z)
    (st : setup_state) (entry : string * data_array) : result setup_state :=
  let '(nz, data, data_vars) := st in
  let '(v, var) := entry in
  let dims := da_dims var in
  let attrs := da_attrs var in
  let '(x_off, y_off) := get_dim_offset dims in
  data ← (if Nat.eqb (length dims) 2
          then Some <$> np_zeros [ny + y_off; nx + x_off]
          else Ok data);
  data ← (if Nat.eqb (length dims) 3
          then d0 ← dim_name dims 0;
               n0 ← ds_dims d d0;
               Some <$> np_zeros [Z.of_nat n0; ny + y_off; nx + x_off]
          else Ok data);
  '(nz, data) ← (if Nat.eqb (length dims) 4
          then d0 ← dim_name dims 0;
               nt ← ds_dims d d0;
               d1 ← dim_name dims 1;
               nz ← ds_dims d d1;
               a ← np_zeros [Z.of_nat nt; Z.of_nat nz; ny + y_off; nx + x_off];
               Ok (Z.of_nat nz, Some a)
          else Ok (nz, data));
  a ← read_local data;
  da ← new_data_array a dims attrs;
  Ok (nz, Some a, dict_set v da data_vars).

Definition set_up_dataset (d : dataset) : result dataset :=
  '(ids, ide, jds, jde, kds, kde) ← get_extent d "d";
  let nx := ide - ids + 1 in
  let ny := jde - jds + 1 in
  let nz := kde - kds + 1 in
  '(_, _, data_vars) ← for_each (ds_variables d) (set_up_variable d nx ny)
                         (nz, None, []);
  new_dataset data_vars (ds_attrs d).

End Datasets.

Arguments data_array val : clear implicits.
Arguments dataset val : clear implicits.

(** ** Strings and file names *)

Fixpoint starts_with (p s : list ascii) : bool :=
  match p, s with
  | [], _ => true
  | a :: p', b :: s' => (Ascii.eqb a b && starts_with p' s')%bool
  | _ :: _, [] => false
  end.

(** [skip] counts the characters of a match that are still to be dropped. *)
Fixpoint replace_from (old new : list ascii) (skip : nat) (s : list ascii)
  : list ascii :=
  match s with
  | [] => []
  | c :: r =>
      match skip with
      | S k => replace_from old new k r
      | O =>
          if starts_with old s
          then new ++ replace_from old new (length old - 1) r
          else c :: replace_from old new 0 r
      end
  end.

(** [s.replace(old, new)] for a non-empty [old]: every occurrence, from the
    left, without overlap. *)
Definition str_replace (s old new : string) : string :=
  string_of_list_ascii
    (replace_from (list_ascii_of_string old) (list_ascii_of_string new) 0
       (list_ascii_of_string s)).

(** Shell-style matching of a file name: [*] is any run of characters and
    [?] any one character (character classes are not modelled). *)
Fixpoint fnmatch_from (pat : list ascii) : list ascii → bool :=
  match pat with
  | [] => λ s, match s with [] => true | _ => false end
  | c :: pat' =>
      if Ascii.eqb c "*"
      then fix star (s : list ascii) : bool :=
             (fnmatch_from pat' s ||
              match s with [] => false | _ :: s' => star s' end)%bool
      else λ s,
             match s with
             | [] => false
             | x :: s' =>
                 ((Ascii.eqb c "?" || Ascii.eqb c x) && fnmatch_from pat' s')%bool
             end
  end.

Definition fnmatch (name pat : string) : bool :=
  fnmatch_from (list_ascii_of_string pat) (list_ascii_of_string name).

(** ** Files, discovery and the aggregation of a time step *)

Section Aggregation.

Context {val : Type} `{!Dtype val}.

(** A file of the output directory: a netCDF dataset, or something
    [xr.open_dataset(...).load()] fails on, with the exception it raises for
    it ([ValueError] for a file no backend recognises, [OSError] for a
    damaged one, ...). *)
Inductive file : Type :=
| NetCDF (d : dataset val)
| Unreadable (e : exn).

(** The part of the world the program touches: the output directory (file
    names are plain names in one directory) and what was printed. *)
Record world : Type := World {
  files : gmap string file;
  stdout : list string
}.

Definition print (w : world) (line : string) : world :=
  World (files w) (stdout w ++ [line]).

(** [glob.glob(pattern)]: the names that match, in no particular order. *)
Definition glob (w : world) (pattern : string) : list string :=
  filter (λ name, fnmatch name pattern = true) (elements (dom (files w))).

(** [list.sort()] on file names. *)
Definition sort (names : list string) : list string :=
  merge_sort String.le names.

Definition load_file (w : world) (file_name : string) : result (dataset val) :=
  match files w !! file_name with
  | Some (NetCDF d) => Ok d
  | Some (Unreadable e) => Raise e
  | None => Raise "FileNotFoundError"
  end.

(** [data_set.to_netcdf(name)]. *)
Definition to_netcdf (w : world) (name : string) (d : dataset val) : world :=
  World (<[name := NetCDF d]> (files w)) (stdout w).

(** [data_set[v].values[dst] = values[src]]: the right-hand side is
    evaluated first, then the target is looked up and written in place. *)
Definition assign (data_set : dataset val) (v : string) (dst : list slice)
    (values : ndarray val) (src : list slice) : result (dataset val) :=
  rhs ← getitem values src;
  target ← ds_get data_set v;
  new ← setitem (da_values target) dst rhs;
  Ok (Dataset (ds_attrs data_set)
        (dict_set v (DataArray (da_dims target) (da_attrs target) new)
           (ds_variables data_set))).

(** The index mapping of [agg_file] (lines 110 to 116) on one axis: the
    tile's interior as a half-open range of the tile's own array, which
    starts at the memory start, and of the global array, which starts at the
    domain start. *)
Definition local_range (m_start t_start t_end : Z) : Z * Z :=
  (t_start - m_start, t_end - m_start + 1).

Definition global_range (d_start t_start t_end : Z) : Z * Z :=
  (t_start - d_start, t_end - d_start + 1).

(** The body of the loop over the variables of a tile. *)
Definition copy_variable (dom mem tile : extent)
    (data_set : dataset val) (entry : string * data_array val)
  : result (dataset val) :=
  let '(ids, ide, jds, jde, kds, kde) := dom in
  let '(ims, ime, jms, jme, kms, kme) := mem in
  let '(its, ite, jts, jte, kts, kte) := tile in
  let '(xts, xte) := local_range ims its ite in
  let '(yts, yte) := local_range jms jts jte in
  let '(zts, zte) := local_range kms kts kte in
  let '(xs, xe) := global_range ids its ite in
  let '(ys, ye) := global_range jds jts jte in
  let '(zs, ze) := global_range kds kts kte in
  let '(v, var) := entry in
  let dims := da_dims var in
  let '(x_off, y_off) := get_dim_offset dims in
  data_set ← (if Nat.eqb (length dims) 2
    then assign data_set v [from_to ys ye; from_to xs xe]
           (da_values var) [from_to yts yte; from_to xts xte]
    else Ok data_set);
  data_set ← (if Nat.eqb (length dims) 3
    then d0 ← dim_name dims 0;
         if String.eqb d0 "time"
         then assign data_set v
                [full; from_to ys (ye + y_off); from_to xs (xe + x_off)]
                (da_values var)
                [full; from_to yts (yte + y_off); from_to xts (xte + x_off)]
         else assign data_set v
                [from_to zs ze; from_to ys (ye + y_off); from_to xs (xe + x_off)]
                (da_values var)
                [from_to zts zte; from_to yts (yte + y_off);
                 from_to xts (xte + x_off)]
    else Ok data_set);
  if Nat.eqb (length dims) 4
  then assign data_set v
         [full; from_to zs ze; from_to ys (ye + y_off); from_to xs (xe + x_off)]
         (da_values var)
         [full; from_to zts zte; from_to yts (yte + y_off);
          from_to xts (xte + x_off)]
  else Ok data_set.

(** The body of the loop over the tiles. *)
Definition copy_tile (dom : extent) (data_set : dataset val) (d : dataset val)
  : result (dataset val) :=
  mem ← get_extent d "m";
  tile ← get_extent d "t";
  for_each (ds_variables d) (copy_variable dom mem tile) data_set.

(** [all_data[0]]. *)
Definition first_of (all_data : list (dataset val)) : result (dataset val) :=
  match all_data with
  | d :: _ => Ok d
  | [] => Raise "IndexError"
  end.

(** [agg_file] from the loaded tiles to the dataset it writes. *)
Definition aggregate (all_data : list (dataset val)) : result (dataset val) :=
  d0 ← first_of all_data;
  data_set ← set_up_dataset d0;
  d0 ← first_of all_data;
  dom ← get_extent d0 "d";
  for_each all_data (copy_tile dom) data_set.

(** [agg_file(first_file)]: the exception it ends with, if any, and the
    world it leaves.  [pool.map_async(load_file, files).get()] gives the
    loaded files in order, or re-raises a failure of [load_file]; when more
    than one file fails the pool keeps the failure that reaches it first,
    here the one of the first such file. *)
Definition agg_file (w : world) (first_file : string) : result () * world :=
  let w := print w first_file in
  let date_search := str_replace first_file "_001_" "*" in
  let this_date_files := sort (glob w date_search) in
  match all_data ← map_result (load_file w) this_date_files;
        aggregate all_data with
  | Ok data_set =>
      (Ok (), to_netcdf w (str_replace first_file "_001_" "_") data_set)
  | Raise e => (Raise e, w)
  end.

End Aggregation.

Arguments file val : clear implicits.
Arguments world val : clear implicits.

(** ** Extents by axis *)

(** The start and the end of an extent on the axes [i], [j] and [k]. *)
Inductive axis : Type := AxisI | AxisJ | AxisK.

Definition ext_start (e : extent) (a : axis) : Z :=
  let '(i_s, _, j_s, _, k_s, _) := e in
  match a with AxisI => i_s | AxisJ => j_s | AxisK => k_s end.

Definition ext_end (e : extent) (a : axis) : Z :=
  let '(_, i_e, _, j_e, _, k_e) := e in
  match a with AxisI => i_e | AxisJ => j_e | AxisK => k_e end.

(** Component-wise inclusion of extents. *)
Definition within (inner outer : extent) : Prop :=
  ∀ a, ext_start outer a ≤ ext_start inner a ∧ ext_end inner a ≤ ext_end outer a.

(** ** Reading the extent attributes *)

(** The attribute [key] of [d] is present and [int()] turns it into [z]. *)
Definition reads {val} (d : dataset val) (key : string) (z : Z) : Prop :=
  ∃ a, ds_attrs d !! key = Some a ∧ py_int a = Ok z.

(** [int(dataset.attrs[key])] raises [e]: the attribute is absent and [e] is
    [KeyError], or it is present and [int()] raises [e] on it. *)
Definition refused {val} (d : dataset val) (key : string) (e : exn) : Prop :=
  (ds_attrs d !! key = None ∧ e = "KeyError") ∨
  (∃ a, ds_attrs d !! key = Some a ∧ py_int a = Raise e).

(** ** Sample data

    Cells hold integers, so that each cell of a tile can carry a value of
    its own. *)

#[global] Instance Z_dtype : Dtype Z := 0.

Definition extent_attrs (dom mem tile : extent) : gmap string attr_value :=
  let '(ids, ide, jds, jde, kds, kde) := dom in
  let '(ims, ime, jms, jme, kms, kme) := mem in
  let '(its, ite, jts, jte, kts, kte) := tile in
  list_to_map
    [("ids", AInt ids); ("ide", AInt ide); ("jds", AInt jds);
     ("jde", AInt jde); ("kds", AInt kds); ("kde", AInt kde);
     ("ims", AInt ims); ("ime", AInt ime); ("jms", AInt jms);
     ("jme", AInt jme); ("kms", AInt kms); ("kme", AInt kme);
     ("its", AInt its); ("ite", AInt ite); ("jts", AInt jts);
     ("jte", AInt jte); ("kts", AInt kts); ("kte", AInt kte)].

(** An array whose cells are numbered from [base] on, in row-major order. *)
Definition numbered (sh : list nat) (base : Z) : ndarray Z :=
  tabulate sh (λ idx, base + Z.of_nat (ravel sh idx)).

(** A dataset without any attribute. *)
Definition bare_tile : dataset Z := Dataset ∅ [].

(** A dataset whose domain end on the [i] axis is the float 2.5. *)
Definition float_tile : dataset Z :=
  Dataset (<["ide" := AFloat {| Qnum := 5; Qden := 2 |}]>
             (extent_attrs (0, 3, 0, 1, 0, 0) (0, 3, 0, 1, 0, 0)
                (0, 3, 0, 1, 0, 0))) [].

(** ** The shape of a template variable *)

Definition domain_nx (dom : extent) : Z := ext_end dom AxisI - ext_start dom AxisI + 1.
Definition domain_ny (dom : extent) : Z := ext_end dom AxisJ - ext_start dom AxisJ + 1.
Definition domain_nz (dom : extent) : Z := ext_end dom AxisK - ext_start dom AxisK + 1.

(** The shape [set_up_dataset] gives to a variable with dimension names
    [dims], from the reference tile [d] and its domain extent. *)
Definition template_shape {val} (d : dataset val) (dom : extent)
    (dims : list string) (sh : list nat) : Prop :=
  let nx := domain_nx dom in
  let ny := domain_ny dom in
  let '(x_off, y_off) := get_dim_offset dims in
  0 ≤ ny + y_off ∧ 0 ≤ nx + x_off ∧
  match dims with
  | [_; _] => sh = [Z.to_nat (ny + y_off); Z.to_nat (nx + x_off)]
  | [d0; _; _] =>
      ∃ n0, ds_dims d d0 = Ok n0 ∧
            sh = [n0; Z.to_nat (ny + y_off); Z.to_nat (nx + x_off)]
  | [d0; d1; _; _] =>
      ∃ nt nz, ds_dims d d0 = Ok nt ∧ ds_dims d d1 = Ok nz ∧
               sh = [nt; nz; Z.to_nat (ny + y_off); Z.to_nat (nx + x_off)]
  | _ => False
  end.

(** The state of the loop of [set_up_dataset] is sound: a bound [data] has
    rank 2, 3 or 4, and every template variable built so far has the shape
    its dimension names ask for. *)
Definition setup_sound {val} (d : dataset val) (dom : extent)
    (st : @setup_state val) : Prop :=
  let '(_, data, data_vars) := st in
  (∀ a, data = Some a → (2 ≤ length (shape a) ≤ 4)%nat) ∧
  (∀ v a, (v, a) ∈ data_vars →
          template_shape d dom (da_dims a) (shape (da_values a))).


(** A tile that covers a 4 × 2 domain alone and has a field staggered on
    both horizontal axes. *)
Definition corner_tile : dataset Z :=
  Dataset (extent_attrs (0, 3, 0, 1, 0, 0) (0, 3, 0, 1, 0, 0) (0, 3, 0, 1, 0, 0))
    [("p", DataArray ["lat"; "lon"] ∅ (numbered [2; 4]%nat 100));
     ("vort", DataArray ["lat_v"; "lon_u"] ∅ (numbered [3; 5]%nat 200))].

(** A tile of a domain with five levels (k from 0 to 4) that has a field on
    two soil layers and a field on three levels. *)
Definition soil_tile : dataset Z :=
  Dataset (extent_attrs (0, 3, 0, 1, 0, 4) (0, 3, 0, 1, 0, 4) (0, 3, 0, 1, 0, 4))
    [("soil_t", DataArray ["soil"; "lat"; "lon"] ∅ (numbered [2; 2; 4]%nat 100));
     ("qv", DataArray ["time"; "level"; "lat"; "lon"] ∅
              (numbered [1; 3; 2; 4]%nat 200))].

(** A tile whose first variable is the one-dimensional time coordinate. *)
Definition coord_first_tile : dataset Z :=
  Dataset (extent_attrs (0, 3, 0, 1, 0, 0) (0, 3, 0, 1, 0, 0) (0, 3, 0, 1, 0, 0))
    [("time", DataArray ["time"] ∅ (numbered [1]%nat 0));
     ("p", DataArray ["lat"; "lon"] ∅ (numbered [2; 4]%nat 100))].

(** The same variables with the time coordinate last. *)
Definition coord_last_tile : dataset Z :=
  Dataset (extent_attrs (0, 3, 0, 1, 0, 0) (0, 3, 0, 1, 0, 0) (0, 3, 0, 1, 0, 0))
    [("p", DataArray ["lat"; "lon"] ∅ (numbered [2; 4]%nat 100));
     ("time", DataArray ["time"] ∅ (numbered [1]%nat 0))].


(** A tile with a rank-2 field whose x dimension is staggered. *)
Definition edge_tile : dataset Z :=
  Dataset (extent_attrs (0, 3, 0, 1, 0, 0) (0, 3, 0, 1, 0, 0) (0, 3, 0, 1, 0, 0))
    [("u10", DataArray ["lat"; "lon_u"] ∅ (numbered [2; 5]%nat 100))].


(** ** Tiles that differ in their domain attributes only *)

(** Same variables, and the same attributes except the six of the domain
    section. *)
Definition same_but_domain {val} (d d' : dataset val) : Prop :=
  ds_variables d = ds_variables d' ∧
  ∀ key, key ∉ get_dims_keys "d" → ds_attrs d !! key = ds_attrs d' !! key.

Definition file_same_but_domain {val} (f f' : file val) : Prop :=
  match f, f' with
  | NetCDF d, NetCDF d' => same_but_domain d d'
  | Unreadable e, Unreadable e' => e = e'
  | _, _ => False
  end.

(** Two states of the output directory with the same file names, whose
    files differ at most in the domain attributes of the tiles. *)
Definition same_but_domains {val} (w w' : world val) : Prop :=
  stdout w = stdout w' ∧
  ∀ name, option_Forall2 file_same_but_domain (files w !! name) (files w' !! name).

(** ** A group of two tiles

    The domain is 4 × 2 (i from 0 to 3, j from 0 to 1, one level).  The left
    tile owns i = 0, 1 and holds i = 2 as halo; the right tile owns i = 2, 3
    and holds i = 1 as halo.  Each has a cell-centred rank-2 field [p] and a
    rank-3 field [u] staggered in x. *)
Definition left_tile : dataset Z :=
  Dataset (extent_attrs (0, 3, 0, 1, 0, 0) (0, 2, 0, 1, 0, 0) (0, 1, 0, 1, 0, 0))
    [("p", DataArray ["lat"; "lon"] ∅ (numbered [2; 3]%nat 100));
     ("u", DataArray ["time"; "lat"; "lon_u"] ∅ (numbered [1; 2; 4]%nat 200))].

Definition right_tile : dataset Z :=
  Dataset (extent_attrs (0, 3, 0, 1, 0, 0) (1, 3, 0, 1, 0, 0) (2, 3, 0, 1, 0, 0))
    [("p", DataArray ["lat"; "lon"] ∅ (numbered [2; 3]%nat 300));
     ("u", DataArray ["time"; "lat"; "lon_u"] ∅ (numbered [1; 2; 4]%nat 400))].

(** The right tile with a domain section that contradicts the left one. *)
Definition right_tile_other_domain : dataset Z :=
  Dataset (extent_attrs (5, 50, 7, 70, 9, 90) (1, 3, 0, 1, 0, 0) (2, 3, 0, 1, 0, 0))
    (ds_variables right_tile).

(** The directory with both tiles of the group, with the right tile
    missing, and with the right tile unreadable. *)
Definition world_complete : world Z :=
  World (list_to_map [("out_001_a", NetCDF left_tile);
                      ("out_002_a", NetCDF right_tile)]) [].

Definition world_other_domain : world Z :=
  World (list_to_map [("out_001_a", NetCDF left_tile);
                      ("out_002_a", NetCDF right_tile_other_domain)]) [].

Definition world_missing : world Z :=
  World (list_to_map [("out_001_a", NetCDF left_tile)]) [].

Definition world_unreadable : world Z :=
  World (list_to_map [("out_001_a", NetCDF left_tile);
                      ("out_002_a", Unreadable "ValueError")]) [].


(** Two results that raise the same exception or return related values. *)
Definition result_rel {A B} (P : A → B → Prop) (r : result A) (r' : result B)
  : Prop :=
  match r, r' with
  | Ok a, Ok b => P a b
  | Raise e, Raise e' => e = e'
  | _, _ => False
  end.

(** ** The driver *)





(** ** Layout of a dataset *)

(** Every cell of the array is zero. *)
Definition all_zero {val} `{!Dtype val} (a : ndarray val) : Prop :=
  Forall (λ c, c = zero) (cells a).

(** The same name, dimension names and attributes. *)
Definition same_variable {val} (e0 e : string * data_array val) : Prop :=
  e.1 = e0.1 ∧ da_dims e.2 = da_dims e0.2 ∧ da_attrs e.2 = da_attrs e0.2.

(** The same variables in the same order, with arrays of the same shape. *)
Definition same_layout {val} (g0 g : dataset val) : Prop :=
  ds_attrs g = ds_attrs g0 ∧
  Forall2 (λ e0 e, same_variable e0 e ∧
                   shape (da_values e.2) = shape (da_values e0.2))
    (ds_variables g0) (ds_variables g).


(** ** Occurrences of a substring *)

Fixpoint contains_from (old s : list ascii) : bool :=
  (starts_with old s ||
   match s with
   | [] => false
   | _ :: r => contains_from old r
   end)%bool.

(** [old in s]. *)
Definition str_contains (s old : string) : bool :=
  contains_from (list_ascii_of_string old) (list_ascii_of_string s).

(** A directory with one file whose name has no tile index. *)
Definition world_single : world Z :=
  World (list_to_map [("restart_a", NetCDF corner_tile)]) [].



(** ** The copy of a variable, axis by axis *)

(** What [agg_file] does with one axis of a variable: it copies the axis
    whole, or it maps the tile's interior on the grid axis [a], with the
    end of the range moved by [widen]. *)
Inductive axis_plan : Type :=
| Whole
| Mapped (a : axis) (widen : Z).

(** The axes of a variable with dimension names [dims], as lines 123 to 131
    treat them; [None] for a rank the copy skips. *)
Definition plan_of (dims : list string) : option (list axis_plan) :=
  let '(x_off, y_off) := get_dim_offset dims in
  match dims with
  | [_; _] => Some [Mapped AxisJ 0; Mapped AxisI 0]
  | [d0; _; _] =>
      if String.eqb d0 "time"
      then Some [Whole; Mapped AxisJ y_off; Mapped AxisI x_off]
      else Some [Mapped AxisK 0; Mapped AxisJ y_off; Mapped AxisI x_off]
  | [_; _; _; _] =>
      Some [Whole; Mapped AxisK 0; Mapped AxisJ y_off; Mapped AxisI x_off]
  | _ => None
  end.

(** The slice of an axis in an array that starts at the start of [origin]:
    the domain for the global array, the memory extent for a tile's array. *)
Definition plan_slice (origin tile : extent) (p : axis_plan) : slice :=
  match p with
  | Whole => full
  | Mapped a widen =>
      from_to (ext_start tile a - ext_start origin a)
              (ext_end tile a - ext_start origin a + 1 + widen)
  end.

(** The slice lies within an axis of length [n]. *)
Definition fits (origin tile : extent) (p : axis_plan) (n : nat) : Prop :=
  match p with
  | Whole => True
  | Mapped a widen =>
      ext_start origin a ≤ ext_start tile a ∧
      ext_start tile a ≤ ext_end tile a + 1 + widen ∧
      ext_end tile a - ext_start origin a + 1 + widen ≤ Z.of_nat n
  end.

(** First position and length of the slice on an axis of length [n]. *)
Definition box (origin tile : extent) (p : axis_plan) (n : nat) : nat * nat :=
  match p with
  | Whole => (0%nat, n)
  | Mapped a widen =>
      (Z.to_nat (ext_start tile a - ext_start origin a),
       Z.to_nat (ext_end tile a - ext_start tile a + 1 + widen))
  end.

(** An axis of the global array (length [n]) and of a tile's array (length
    [m]) that the copy can handle without broadcasting. *)
Definition axis_ok (dom mem tile : extent) (p : axis_plan) (n m : nat) : Prop :=
  match p with
  | Whole => n = m
  | Mapped _ _ => fits dom tile p n ∧ fits mem tile p m
  end.

(** The position [i] of the global array is one the tile writes. *)
Definition covers (dom tile : extent) (p : axis_plan) (i : nat) : bool :=
  match p with
  | Whole => true
  | Mapped a widen =>
      (ext_start tile a <=? Z.of_nat i + ext_start dom a) &&
      (Z.of_nat i + ext_start dom a <=? ext_end tile a + widen)
  end.

Definition covered (dom tile : extent) (plan : list axis_plan)
    (idx : list nat) : bool :=
  forallb (λ pi, covers dom tile pi.1 pi.2) (zip plan idx).

(** The position of the tile's array that is copied to position [i]. *)
Definition source (dom mem : extent) (p : axis_plan) (i : nat) : nat :=
  match p with
  | Whole => i
  | Mapped a _ => Z.to_nat (Z.of_nat i + ext_start dom a - ext_start mem a)
  end.

Definition source_index (dom mem : extent) (plan : list axis_plan)
    (idx : list nat) : list nat :=
  zip_with (source dom mem) plan idx.

(** ** What a group of tiles writes into a cell *)

Definition extent_of {val} (d : dataset val) (section : string) : extent :=
  match get_extent d section with
  | Ok e => e
  | Raise _ => (0, 0, 0, 0, 0, 0)
  end.

(** The cell of variable [v] of a tile, [zero] if the tile has no such
    variable. *)
Definition tile_cell {val} `{!Dtype val} (d : dataset val) (v : string)
    (idx : list nat) : val :=
  match assoc v (ds_variables d) with
  | Some var => item (da_values var) idx
  | None => zero
  end.

(** The value of a cell of [v] after the copy of tile [d]: the tile's value
    if the tile covers the cell, the previous value otherwise. *)
Definition paint {val} `{!Dtype val} (dom : extent) (plan : list axis_plan)
    (v : string) (idx : list nat) (before : val) (d : dataset val) : val :=
  if covered dom (extent_of d "t") plan idx
  then tile_cell d v (source_index dom (extent_of d "m") plan idx)
  else before.

(** The value after the copies of all tiles, in their order, over zero. *)
Definition painted {val} `{!Dtype val} (dom : extent) (plan : list axis_plan)
    (v : string) (tiles : list (dataset val)) (idx : list nat) : val :=
  foldl (paint dom plan v idx) zero tiles.

(** Tile [d] holds variable [v] with the dimension names of the plan, in an
    array that the copy into a global array of shape [sh] can handle. *)
Definition tile_ready {val} (dom : extent) (plan : list axis_plan)
    (v : string) (sh : list nat) (d : dataset val) : Prop :=
  NoDup (ds_variables d).*1 ∧
  ∃ var,
    assoc v (ds_variables d) = Some var ∧
    plan_of (da_dims var) = Some plan ∧
    Forall3 (axis_ok dom (extent_of d "m") (extent_of d "t")) plan sh
      (shape (da_values var)).

(** The tiles of the group that write the cell, in the order of the
    group. *)
Definition writers {val} (dom : extent) (plan : list axis_plan)
    (tiles : list (dataset val)) (idx : list nat) : list (dataset val) :=
  filter (λ d, covered dom (extent_of d "t") plan idx = true) tiles.


(** ** Tiles that partition the columns of the domain *)







(** ** Tiles the copy can handle *)

(** Every variable of rank 2, 3 or 4 of the tile is a variable of the
    template, held in an array the slices of the copy fit. *)
Definition variables_fit {val} (dom mem tile : extent) (tmpl d : dataset val)
  : Prop :=
  Forall (λ entry : string * data_array val,
    match plan_of (da_dims entry.2) with
    | Some plan =>
        ∃ a0, assoc entry.1 (ds_variables tmpl) = Some a0 ∧
              Forall3 (axis_ok dom mem tile) plan (shape (da_values a0))
                (shape (da_values entry.2))
    | None => True
    end) (ds_variables d).

(** The tile has its memory and tile extents, and its variables fit. *)
Definition tile_fits {val} (dom : extent) (tmpl d : dataset val) : Prop :=
  ∃ mem tile,
    get_extent d "m" = Ok mem ∧ get_extent d "t" = Ok tile ∧
    variables_fit dom mem tile tmpl d.


(** ** Aggregates of the sample groups *)

Definition aggregate_or_empty (tiles : list (dataset Z)) : dataset Z :=
  match aggregate tiles with
  | Ok g => g
  | Raise _ => Dataset ∅ []
  end.

(** The aggregate of the two tiles, left tile first and right tile first,
    and of the tile with the staggered rank-2 field. *)
Definition left_right_aggregate : dataset Z :=
  Eval vm_compute in aggregate_or_empty [left_tile; right_tile].

Definition right_left_aggregate : dataset Z :=
  Eval vm_compute in aggregate_or_empty [right_tile; left_tile].

Definition edge_aggregate : dataset Z :=
  Eval vm_compute in aggregate_or_empty [edge_tile].

(** The variable [v] of a dataset, an empty variable if there is none. *)
Definition variable_of (d : dataset Z) (v : string) : data_array Z :=
  match assoc v (ds_variables d) with
  | Some a => a
  | None => DataArray [] ∅ (NdArray [] [])
  end.


(** ** Ranges of positions *)

(** The position [i] lies in the half-open range [r]. *)
Definition in_range (r : Z * Z) (i : nat) : bool :=
  (r.1 <=? Z.of_nat i) && (Z.of_nat i <? r.2).

(** The position of the range [src] that is as far from its start as [i] is
    from the start of the range [dst]. *)
Definition matching (dst src : Z * Z) (i : nat) : nat :=
  Z.to_nat (Z.of_nat i - dst.1 + src.1).

(** The range with its end moved by [off]. *)
Definition widened (r : Z * Z) (off : Z) : Z * Z := (r.1, r.2 + off).

(** The range lies within an axis of length [n]. *)
Definition range_fits (r : Z * Z) (n : nat) : Prop :=
  0 ≤ r.1 ∧ r.1 ≤ r.2 ∧ r.2 ≤ Z.of_nat n.

(** A tile that owns the columns i = 1, 2 and the levels k = 1, 2 of a
    domain of 4 × 2 columns and three levels, and holds the whole domain
    in memory.  It has a rank-2 field and a rank-3 field over time, both
    staggered in x, and a rank-3 field over levels. *)
Definition inner_tile : dataset Z :=
  Dataset (extent_attrs (0, 3, 0, 1, 0, 2) (0, 3, 0, 1, 0, 2) (1, 2, 0, 1, 1, 2))
    [("u10", DataArray ["lat"; "lon_u"] ∅ (numbered [2; 5]%nat 100));
     ("u", DataArray ["time"; "lat"; "lon_u"] ∅ (numbered [3; 2; 5]%nat 200));
     ("qc", DataArray ["level"; "lat"; "lon"] ∅ (numbered [3; 2; 4]%nat 300))].

(** A global dataset with the same fields, numbered from 0. *)
Definition inner_global : dataset Z :=
  Dataset ∅
    [("u10", DataArray ["lat"; "lon_u"] ∅ (numbered [2; 5]%nat 0));
     ("u", DataArray ["time"; "lat"; "lon_u"] ∅ (numbered [3; 2; 5]%nat 0));
     ("qc", DataArray ["level"; "lat"; "lon"] ∅ (numbered [3; 2; 4]%nat 0))].



(** * Properties *)

(** ** Results and loops *)

Lemma bind_Ok {A B} (r : result A) (k : A → result B) (b : B) :
  r ≫= k = Ok b ↔ ∃ a, r = Ok a ∧ k a = Ok b.
Proof.
  destruct r as [a|e]; simpl; split.
  - eauto.
  - by intros (? & [= <-] & ?).
  - done.
  - by intros (? & ? & ?).
Qed.

Lemma bind_Raise {A B} (r : result A) (k : A → result B) (e : exn) :
  r ≫= k = Raise e ↔ r = Raise e ∨ ∃ a, r = Ok a ∧ k a = Raise e.
Proof.
  destruct r as [a|e']; simpl; split.
  - intros H. right. by exists a.
  - by intros [?|(? & [= <-] & ?)].
  - intros [= ->]. by left.
  - by intros [[= ->]|(? & ? & ?)].
Qed.

Lemma fmap_Ok {A B} (f : A → B) (r : result A) (b : B) :
  f <$> r = Ok b ↔ ∃ a, r = Ok a ∧ b = f a.
Proof.
  destruct r as [a|e]; simpl; split.
  - intros [= <-]. eauto.
  - by intros (? & [= <-] & ->).
  - done.
  - by intros (? & ? & ?).
Qed.

Lemma result_cases {A} (r : result A) : (∃ a, r = Ok a) ∨ raises r.
Proof. destruct r; [left|right]; eexists; done. Qed.

Lemma map_result_Ok {A B} (f : A → result B) xs ys :
  map_result f xs = Ok ys ↔ Forall2 (λ x y, f x = Ok y) xs ys.
Proof.
  revert ys. induction xs as [|x xs IH]; intros ys; simpl.
  - split; [intros [= <-]; constructor | by inversion 1].
  - rewrite bind_Ok. split.
    + intros (y & Hy & H). apply bind_Ok in H as (ys' & H & [= <-]).
      constructor; [done | by apply IH].
    + inversion 1 as [|? y ? ys' Hy Hys]; subst.
      exists y. split; [done|]. apply bind_Ok. exists ys'.
      split; [by apply IH | done].
Qed.

Lemma map_result_Raise {A B} (f : A → result B) xs e :
  map_result f xs = Raise e → ∃ x, x ∈ xs ∧ f x = Raise e.
Proof.
  induction xs as [|x xs IH]; simpl; [done|].
  rewrite bind_Raise. intros [H|(y & _ & H)].
  - exists x. split; [left | done].
  - apply bind_Raise in H as [H|(? & _ & ?)]; [|done].
    destruct (IH H) as (x' & ? & ?). exists x'. split; [by right | done].
Qed.

Lemma map_result_raises {A B} (f : A → result B) xs x :
  x ∈ xs → raises (f x) → raises (map_result f xs).
Proof.
  intros Hin [e He]. induction xs as [|x' xs IH]; [by inversion Hin|].
  simpl. destruct (f x') as [y|e'] eqn:Hx'; simpl; [|by eexists].
  inversion Hin; subst; [congruence|].
  destruct IH as [e' ->]; [done|]. by eexists.
Qed.

(** ** The index mapping *)

(** C2. For extents with tile ⊆ memory and tile ⊆ domain and for each axis,
    the local range [t0, t1) and the global range [g0, g1) of the index
    mapping have the same length, namely tile end − tile start + 1. *)
Theorem local_global_same_length (dom mem tile : extent) (a : axis) :
  within tile mem → within tile dom →
  let '(t0, t1) := local_range (ext_start mem a) (ext_start tile a) (ext_end tile a) in
  let '(g0, g1) := global_range (ext_start dom a) (ext_start tile a) (ext_end tile a) in
  t1 - t0 = g1 - g0 ∧ t1 - t0 = ext_end tile a - ext_start tile a + 1.
Proof. intros _ _. unfold local_range, global_range. lia. Qed.

Lemma local_global_same_length_witness :
  let dom := (0, 9, 0, 9, 0, 4) in
  let mem := (4, 9, 0, 5, 0, 4) in
  let tile := (5, 9, 0, 4, 0, 4) in
  local_range 4 5 9 = (1, 6) ∧ global_range 0 5 9 = (5, 10) ∧
  6 - 1 = 10 - 5 ∧ 6 - 1 = 9 - 5 + 1.
Proof.
  intros dom mem tile.
  split; [reflexivity|]. split; [reflexivity|].
  apply (local_global_same_length dom mem tile AxisI).
  - intros []; simpl; lia.
  - intros []; simpl; lia.
Defined.

(** ** The extent reader *)

Lemma get_dims_keys_eq (section : string) :
  get_dims_keys section =
  ["i" +:+ section +:+ "s"; "i" +:+ section +:+ "e";
   "j" +:+ section +:+ "s"; "j" +:+ section +:+ "e";
   "k" +:+ section +:+ "s"; "k" +:+ section +:+ "e"].
Proof. reflexivity. Qed.

Lemma read_attr_Ok {val} (d : dataset val) key z :
  (a ← attrs_get d key; py_int a) = Ok z ↔ reads d key z.
Proof.
  unfold reads, attrs_get. rewrite bind_Ok. split.
  - intros (a & Ha & Hz). exists a. split; [|done].
    by destruct (ds_attrs d !! key); simplify_eq.
  - intros (a & -> & Hz). by exists a.
Qed.

Lemma read_attr_Raise {val} (d : dataset val) key e :
  (a ← attrs_get d key; py_int a) = Raise e ↔ refused d key e.
Proof.
  unfold refused, attrs_get. destruct (ds_attrs d !! key) as [a|]; simpl.
  - split.
    + intros H. right. by exists a.
    + by intros [[? _]|(a' & [= <-] & ?)].
  - split.
    + intros [= <-]. by left.
    + by intros [[_ ->]|(? & ? & _)].
Qed.

(** A comprehension raises the exception of its first element that raises. *)
Lemma map_result_first {A B} (f : A → result B) xs e :
  map_result f xs = Raise e ↔
  ∃ n x, xs !! n = Some x ∧ f x = Raise e ∧
         ∀ m y, (m < n)%nat → xs !! m = Some y → ∃ b, f y = Ok b.
Proof.
  induction xs as [|x xs IH]; simpl.
  - split; [done | by intros (? & ? & ? & _)].
  - rewrite bind_Raise. split.
    + intros [H|(b & Hb & H)].
      * exists 0%nat, x. repeat split; [done|]. intros; lia.
      * apply bind_Raise in H as [H|(? & _ & ?)]; [|done].
        apply IH in H as (n & x' & Hn & Hx' & Hbefore).
        exists (S n), x'. repeat split; [done..|].
        intros [|m] y Hm Hy; simplify_eq/=; [by exists b|].
        apply (Hbefore m); [lia | done].
    + intros ([|n] & x' & Hn & Hx' & Hbefore); simplify_eq/=; [by left|].
      right. destruct (Hbefore 0%nat x) as [b Hb]; [lia | done |].
      exists b. split; [done|]. apply bind_Raise. left.
      apply IH. exists n, x'. repeat split; [done..|].
      intros m y Hm Hy. apply (Hbefore (S m)); [lia | done].
Qed.

(** C8 (as amended). [get_dims] returns the six integers in the order
    start_i, end_i, start_j, end_j, start_k, end_k exactly when each of the
    six attributes of the section is present and [int()] converts it (a float
    is truncated, it is not refused).  Otherwise it raises, and the exception
    is decided by the first attribute, in that order, that is absent or
    that [int()] refuses: [KeyError] if it is absent, the exception of
    [int()] if it is present (all attributes before it having been read).
    It is a function of the dataset and changes nothing. *)
Theorem get_dims_spec {val} (d : dataset val) (section : string) :
  (∀ l, get_dims d section = Ok l ↔
        ∃ s_i e_i s_j e_j s_k e_k,
          l = [s_i; e_i; s_j; e_j; s_k; e_k] ∧
          reads d ("i" +:+ section +:+ "s") s_i ∧
          reads d ("i" +:+ section +:+ "e") e_i ∧
          reads d ("j" +:+ section +:+ "s") s_j ∧
          reads d ("j" +:+ section +:+ "e") e_j ∧
          reads d ("k" +:+ section +:+ "s") s_k ∧
          reads d ("k" +:+ section +:+ "e") e_k) ∧
  (∀ e, get_dims d section = Raise e ↔
        ∃ n key, get_dims_keys section !! n = Some key ∧
          refused d key e ∧
          ∀ m earlier, (m < n)%nat →
            get_dims_keys section !! m = Some earlier →
            ∃ z, reads d earlier z).
Proof.
  split.
  - intros l. unfold get_dims. rewrite map_result_Ok, get_dims_keys_eq.
    split.
    + intros H.
      repeat match goal with
             | H : Forall2 _ (_ :: _) _ |- _ =>
                 apply Forall2_cons_inv_l in H as (? & ? & ?%read_attr_Ok & H & ->)
             end.
      apply Forall2_nil_inv_l in H as ->. naive_solver.
    + intros (s_i & e_i & s_j & e_j & s_k & e_k & -> & ? & ? & ? & ? & ? & ?).
      repeat (constructor; [by apply read_attr_Ok|]). constructor.
  - intros e. unfold get_dims. rewrite map_result_first. split.
    + intros (n & key & Hn & He & Hbefore).
      exists n, key. split; [done|]. split; [by apply read_attr_Raise|].
      intros m earlier Hm Hearlier.
      destruct (Hbefore m earlier Hm Hearlier) as [z Hz].
      exists z. by apply read_attr_Ok.
    + intros (n & key & Hn & He & Hbefore).
      exists n, key. split; [done|]. split; [by apply read_attr_Raise|].
      intros m earlier Hm Hearlier.
      destruct (Hbefore m earlier Hm Hearlier) as [z Hz].
      exists z. by apply read_attr_Ok.
Qed.

(** C8, as stated, fails: an absent attribute raises [KeyError], no
    [MissingMetadataError], and an attribute that is not an integer (the
    float 2.5) is accepted and truncated. *)
Lemma get_dims_missing_metadata_counterexample :
  get_dims bare_tile "d" = Raise "KeyError" ∧
  get_dims bare_tile "d" ≠ Raise "MissingMetadataError" ∧
  ds_attrs float_tile !! "ide" = Some (AFloat {| Qnum := 5; Qden := 2 |}) ∧
  get_dims float_tile "d" = Ok [0; 2; 0; 1; 0; 0].
Proof. repeat split; try done; vm_compute; done. Qed.

(** ** The template builder *)

Section Template.

Context {val : Type} `{!Dtype val}.
Implicit Types (d g : dataset val) (a : data_array val).

Lemma np_zeros_Ok (sh : list Z) (z : ndarray val) :
  np_zeros sh = Ok z →
  Forall (λ n, 0 ≤ n) sh ∧ z = tabulate (Z.to_nat <$> sh) (λ _, zero).
Proof.
  unfold np_zeros. destruct (forallb (Z.leb 0) sh) eqn:H; [|done].
  intros [= <-]. split; [|done].
  apply Is_true_true, forallb_True in H. eapply Forall_impl; [exact H|].
  intros n Hn. apply Is_true_true in Hn. lia.
Qed.

Lemma elem_of_dict_set {A} (k k0 : string) (x x0 : A) l :
  (k, x) ∈ dict_set k0 x0 l → (k, x) = (k0, x0) ∨ (k, x) ∈ l.
Proof.
  induction l as [|[k' x'] l IH]; simpl.
  - intros ->%list_elem_of_singleton. by left.
  - destruct (String.eqb k0 k').
    + intros [->|?]%elem_of_cons; [by left | right; by right].
    + intros [->|?]%elem_of_cons; [right; by left|].
      destruct IH as [?|?]; [done | by left | right; by right].
Qed.

Lemma for_each_invariant {A S} (P : S → Prop) (Q : A → Prop)
    (body : S → A → result S) xs :
  (∀ s x s', x ∈ xs → P s → body s x = Ok s' → P s' ∧ Q x) →
  ∀ s s', P s → for_each xs body s = Ok s' → P s' ∧ Forall Q xs.
Proof.
  induction xs as [|x xs IH]; intros Hbody s s' Hs; simpl.
  - by intros [= <-].
  - rewrite bind_Ok. intros (s1 & H1 & H2).
    destruct (Hbody s x s1) as [Hs1 Hx]; [by left|done..|].
    destruct (IH (λ s x s' Hin, Hbody s x s' (list_elem_of_further _ _ _ Hin))
                s1 s' Hs1 H2) as [? ?].
    split; [done | by constructor].
Qed.

Local Ltac use_step :=
  match goal with
  | Hstep : ∀ z0 nz0, _ |- Ok (?n, Some ?z, _) = _ → _ =>
      let Heq := fresh in intros Heq; apply (Hstep z n); [| |exact Heq]
  end.

Lemma set_up_variable_sound d dom st v var st' :
  setup_sound d dom st →
  set_up_variable d (domain_nx dom) (domain_ny dom) st (v, var) = Ok st' →
  setup_sound d dom st' ∧
  (2 ≤ length (da_dims var) ≤ 4)%nat.
Proof.
  destruct st as [[nz data] data_vars], st' as [[nz' data'] data_vars'].
  intros [Hdata Hvars]. unfold set_up_variable.
  assert (Hstep : ∀ (z0 : ndarray val) (nz0 : Z),
    template_shape d dom (da_dims var) (shape z0) →
    (2 ≤ length (shape z0) ≤ 4)%nat →
    (z ← read_local (Some z0);
     da ← new_data_array z (da_dims var) (da_attrs var);
     Ok (nz0, Some z, dict_set v da data_vars)) = Ok (nz', data', data_vars') →
    setup_sound d dom (nz', data', data_vars') ∧
    (2 ≤ length (da_dims var) ≤ 4)%nat).
  { intros z0 nz0 Hsh Hrank. simpl. unfold new_data_array.
    destruct (Nat.eqb_spec (length (shape z0)) (length (da_dims var)));
      simpl; [|done].
    intros [= <- <- <-]. split; [|lia]. split.
    - by intros ? [= <-].
    - intros v' a' [[= -> ->]|?]%elem_of_dict_set; [done | eauto]. }
  unfold template_shape in Hstep.
  destruct (get_dim_offset (da_dims var)) as [x_off y_off] eqn:Hoff.
  destruct (da_dims var) as [|d0 [|d1 [|d2 [|d3 [|d4 rest]]]]] eqn:Hdims;
    simpl.
  - destruct data as [z0|]; simpl; [|done]. unfold new_data_array; simpl.
    destruct (Nat.eqb_spec (length (shape z0)) 0); simpl; [|done].
    specialize (Hdata z0 eq_refl). lia.
  - destruct data as [z0|]; simpl; [|done]. unfold new_data_array; simpl.
    destruct (Nat.eqb_spec (length (shape z0)) 1); simpl; [|done].
    specialize (Hdata z0 eq_refl). lia.
  - destruct (np_zeros _) as [z|] eqn:Hz; simpl; [|done].
    apply np_zeros_Ok in Hz as [Hpos ->]. simpl.
    apply Forall_cons in Hpos as [? [? _]%Forall_cons].
    use_step; simpl; [done | lia].
  - destruct (ds_dims d d0) as [n0|] eqn:Hn0; simpl; [|done].
    destruct (np_zeros _) as [z|] eqn:Hz; simpl; [|done].
    apply np_zeros_Ok in Hz as [Hpos ->]. simpl.
    apply Forall_cons in Hpos as [_ [? [? _]%Forall_cons]%Forall_cons].
    use_step; simpl; [|lia].
    split; [done|]. split; [done|]. exists n0.
    by rewrite Nat2Z.id.
  - destruct (ds_dims d d0) as [nt|] eqn:Hnt; simpl; [|done].
    destruct (ds_dims d d1) as [nz1|] eqn:Hnz; simpl; [|done].
    destruct (np_zeros _) as [z|] eqn:Hz; simpl; [|done].
    apply np_zeros_Ok in Hz as [Hpos ->]. simpl.
    apply Forall_cons in Hpos
      as [_ [_ [? [? _]%Forall_cons]%Forall_cons]%Forall_cons].
    use_step; simpl; [|lia].
    split; [done|]. split; [done|]. exists nt, nz1.
    by rewrite !Nat2Z.id.
  - destruct data as [z0|]; simpl; [|done]. unfold new_data_array; simpl.
    destruct (Nat.eqb_spec (length (shape z0)) (S (S (S (S (S (length rest)))))));
      simpl; [|done].
    specialize (Hdata z0 eq_refl). lia.
Qed.

Lemma set_up_dataset_Ok d g :
  set_up_dataset d = Ok g →
  ∃ dom data_vars,
    get_extent d "d" = Ok dom ∧
    g = Dataset (ds_attrs d) data_vars ∧
    (∀ v a, (v, a) ∈ data_vars →
            template_shape d dom (da_dims a) (shape (da_values a))) ∧
    Forall (λ entry, 2 ≤ length (da_dims entry.2) ≤ 4)%nat (ds_variables d).
Proof.
  unfold set_up_dataset. rewrite bind_Ok. intros (dom & Hdom & H).
  destruct dom as [[[[[ids ide] jds] jde] kds] kde].
  apply bind_Ok in H as ([[nz data] data_vars] & Hloop & Hnew).
  exists (ids, ide, jds, jde, kds, kde), data_vars. split; [done|].
  unfold new_dataset in Hnew.
  destruct (consistent_sizes data_vars); [|done]. injection Hnew as <-.
  split; [done|].
  pose proof (for_each_invariant
    (setup_sound d (ids, ide, jds, jde, kds, kde))
    (λ entry, 2 ≤ length (da_dims entry.2) ≤ 4)%nat
    (set_up_variable d (ide - ids + 1) (jde - jds + 1))
    (ds_variables d)) as Hinv.
  destruct (Hinv) with (s := (kde - kds + 1, @None (ndarray val),
                              @nil (string * data_array val)))
                       (s' := (nz, data, data_vars)) as [[_ Hvars] Hranks].
  - intros s [v var] s' _ Hs Hbody.
    by apply (set_up_variable_sound d (ids, ide, jds, jde, kds, kde) s v var s').
  - split; [done|]. intros ?? Hin. by apply elem_of_nil in Hin.
  - done.
  - done.
Qed.

(** C3. In the template, the trailing x size of every variable is
    domain_nx + 1 if its dimension names contain ['lon_u'] and domain_nx
    otherwise, and its trailing y size is domain_ny + 1 if they contain
    ['lat_v'] and domain_ny otherwise; the two offsets are those of
    [get_dim_offset], each 0 or 1, independently of one another. *)
Theorem stagger_trailing_sizes d g dom :
  set_up_dataset d = Ok g →
  get_extent d "d" = Ok dom →
  ∀ v a, (v, a) ∈ ds_variables g →
    let x_offset := if bool_decide ("lon_u" ∈ da_dims a) then 1 else 0 in
    let y_offset := if bool_decide ("lat_v" ∈ da_dims a) then 1 else 0 in
    get_dim_offset (da_dims a) = (x_offset, y_offset) ∧
    ∃ (lead : list nat) (ny nx : nat),
      shape (da_values a) = (lead ++ [ny; nx])%list ∧
      Z.of_nat nx = domain_nx dom + x_offset ∧
      Z.of_nat ny = domain_ny dom + y_offset.
Proof.
  intros Hg Hdom v a Hin x_offset y_offset.
  apply set_up_dataset_Ok in Hg as (dom' & data_vars & Hdom' & -> & Hvars & _).
  assert (dom' = dom) as -> by congruence.
  specialize (Hvars v a Hin). unfold template_shape in Hvars.
  unfold get_dim_offset in *. fold x_offset y_offset in Hvars |- *.
  split; [done|]. destruct Hvars as (Hy & Hx & Hsh).
  destruct (da_dims a) as [|d0 [|d1 [|d2 [|d3 [|d4 rest]]]]]; try done.
  - exists [], (Z.to_nat (domain_ny dom + y_offset)),
      (Z.to_nat (domain_nx dom + x_offset)).
    split; [done|]. lia.
  - destruct Hsh as (n0 & _ & ->).
    exists [n0], (Z.to_nat (domain_ny dom + y_offset)),
      (Z.to_nat (domain_nx dom + x_offset)).
    split; [done|]. lia.
  - destruct Hsh as (nt & nz & _ & _ & ->).
    exists [nt; nz], (Z.to_nat (domain_ny dom + y_offset)),
      (Z.to_nat (domain_nx dom + x_offset)).
    split; [done|]. lia.
Qed.

(** C4 (as amended). In the template, the leading axis of a rank-3 variable
    has the size the reference tile has for that dimension, whether it is a
    time axis or a level axis, and the two leading axes of a rank-4 variable
    have the sizes the reference tile has for them; the vertical extent of
    the domain plays no part. *)
Theorem template_leading_sizes d g :
  set_up_dataset d = Ok g →
  ∀ v a, (v, a) ∈ ds_variables g →
    match da_dims a with
    | [d0; _; _] =>
        ∃ n0, ds_dims d d0 = Ok n0 ∧ shape (da_values a) !! 0%nat = Some n0
    | [d0; d1; _; _] =>
        ∃ nt nz, ds_dims d d0 = Ok nt ∧ ds_dims d d1 = Ok nz ∧
                 shape (da_values a) !! 0%nat = Some nt ∧
                 shape (da_values a) !! 1%nat = Some nz
    | _ => True
    end.
Proof.
  intros Hg v a Hin.
  apply set_up_dataset_Ok in Hg as (dom & data_vars & _ & -> & Hvars & _).
  specialize (Hvars v a Hin). unfold template_shape in Hvars.
  destruct (get_dim_offset (da_dims a)) as [x_off y_off].
  destruct Hvars as (_ & _ & Hsh).
  destruct (da_dims a) as [|d0 [|d1 [|d2 [|d3 [|d4 rest]]]]]; try done.
  - destruct Hsh as (n0 & ? & ->). by exists n0.
  - destruct Hsh as (nt & nz & ? & ? & ->). by exists nt, nz.
Qed.

(** C7 (as amended). For a reference tile with a variable of fewer than 2
    or more than 4 dimensions, [set_up_dataset] returns no template: it ends
    with an exception. *)
Theorem unsupported_rank_raises d v var :
  (v, var) ∈ ds_variables d →
  (length (da_dims var) < 2 ∨ 4 < length (da_dims var))%nat →
  raises (set_up_dataset d).
Proof.
  intros Hin Hrank. destruct (set_up_dataset d) as [g|e] eqn:Hg.
  - apply set_up_dataset_Ok in Hg as (dom & data_vars & _ & _ & _ & Hranks).
    rewrite Forall_forall in Hranks. specialize (Hranks _ Hin). simpl in *. lia.
  - by exists e.
Qed.

End Template.

Lemma stagger_trailing_sizes_witness :
  ∃ g a,
    set_up_dataset corner_tile = Ok g ∧
    ("vort", a) ∈ ds_variables g ∧
    da_dims a = ["lat_v"; "lon_u"] ∧
    get_dim_offset (da_dims a) = (1, 1) ∧
    ∃ (lead : list nat) (ny nx : nat),
      shape (da_values a) = (lead ++ [ny; nx])%list ∧
      Z.of_nat nx = domain_nx (0, 3, 0, 1, 0, 0) + 1 ∧
      Z.of_nat ny = domain_ny (0, 3, 0, 1, 0, 0) + 1.
Proof.
  eexists _, (DataArray ["lat_v"; "lon_u"] ∅ _).
  split; [vm_compute; reflexivity|].
  split; [right; left|]. split; [reflexivity|].
  apply (stagger_trailing_sizes corner_tile _ (0, 3, 0, 1, 0, 0)
           (ltac:(vm_compute; reflexivity)) (ltac:(vm_compute; reflexivity))
           "vort" (DataArray ["lat_v"; "lon_u"] ∅ _)).
  right; left.
Defined.

Lemma template_leading_sizes_witness :
  ∃ g a,
    set_up_dataset soil_tile = Ok g ∧
    ("soil_t", a) ∈ ds_variables g ∧
    da_dims a = ["soil"; "lat"; "lon"] ∧
    ∃ n0, ds_dims soil_tile "soil" = Ok n0 ∧
          shape (da_values a) !! 0%nat = Some n0.
Proof.
  eexists _, (DataArray ["soil"; "lat"; "lon"] ∅ _).
  split; [vm_compute; reflexivity|].
  split; [left|]. split; [reflexivity|].
  apply (template_leading_sizes soil_tile _ (ltac:(vm_compute; reflexivity))
           "soil_t" (DataArray ["soil"; "lat"; "lon"] ∅ _)).
  left.
Defined.

(** C4, as stated, fails: with five levels in the domain, the template of a
    field on two soil layers has a leading axis of size 2, and the template
    of a rank-4 field on three levels has a second axis of size 3. *)
Lemma template_level_size_counterexample :
  ∃ g soil_t qv,
    set_up_dataset soil_tile = Ok g ∧
    get_extent soil_tile "d" = Ok (0, 3, 0, 1, 0, 4) ∧
    domain_nz (0, 3, 0, 1, 0, 4) = 5 ∧
    ds_variables g = [("soil_t", soil_t); ("qv", qv)] ∧
    da_dims soil_t = ["soil"; "lat"; "lon"] ∧
    shape (da_values soil_t) = [2; 2; 4]%nat ∧
    da_dims qv = ["time"; "level"; "lat"; "lon"] ∧
    shape (da_values qv) = [1; 3; 2; 4]%nat.
Proof.
  eexists _, (DataArray _ _ _), (DataArray _ _ _).
  split; [vm_compute; reflexivity|]. by vm_compute.
Qed.

Lemma unsupported_rank_raises_witness :
  ("time", DataArray ["time"] ∅ (numbered [1]%nat 0))
    ∈ ds_variables coord_last_tile ∧
  raises (set_up_dataset coord_last_tile).
Proof.
  split; [right; left|].
  apply (unsupported_rank_raises coord_last_tile "time"
           (DataArray ["time"] ∅ (numbered [1]%nat 0))).
  - right; left.
  - left. simpl. lia.
Defined.

(** C7, as stated, fails: no [UnsupportedRankError] is raised.  With a
    one-dimensional variable first, [set_up_dataset] ends with the
    [UnboundLocalError] of the local [data]; with the same variable after a
    two-dimensional one, with the [ValueError] of [xr.DataArray]. *)
Lemma unsupported_rank_counterexample :
  ("time", DataArray ["time"] ∅ (numbered [1]%nat 0))
    ∈ ds_variables coord_first_tile ∧
  set_up_dataset coord_first_tile = Raise "UnboundLocalError" ∧
  set_up_dataset coord_first_tile ≠ Raise "UnsupportedRankError" ∧
  ("time", DataArray ["time"] ∅ (numbered [1]%nat 0))
    ∈ ds_variables coord_last_tile ∧
  set_up_dataset coord_last_tile = Raise "ValueError" ∧
  set_up_dataset coord_last_tile ≠ Raise "UnsupportedRankError".
Proof.
  split; [left|]. split; [vm_compute; reflexivity|].
  split; [vm_compute; discriminate|].
  split; [right; left|]. split; [vm_compute; reflexivity|].
  vm_compute; discriminate.
Qed.

(** ** Loading a group of tiles *)

Section Loading.

Context {val : Type} `{!Dtype val}.
Implicit Types (w : world val) (d : dataset val).

Lemma elem_of_sort (names : list string) (name : string) :
  name ∈ sort names ↔ name ∈ names.
Proof. unfold sort. by rewrite merge_sort_Permutation. Qed.

Lemma elem_of_glob w pattern name :
  name ∈ glob w pattern → is_Some (files w !! name).
Proof.
  unfold glob. rewrite list_elem_of_filter, elem_of_elements, elem_of_dom.
  by intros [_ ?].
Qed.

(** A name found by [glob] exists: loading it fails only if it cannot be
    opened, and then with the exception of [xr.open_dataset]. *)
Lemma load_file_globbed w pattern name e :
  name ∈ glob w pattern → load_file w name = Raise e →
  files w !! name = Some (Unreadable e).
Proof.
  intros [f Hf]%elem_of_glob. unfold load_file. rewrite Hf.
  destruct f; by intros [= <-].
Qed.

(** C5 (as amended). If a file that matches the pattern of the time step
    cannot be opened, [agg_file] ends with the exception the loader raised
    for a file of the group that cannot be opened, and writes nothing: the
    directory is as it was. *)
Theorem unreadable_tile_aborts w first_file name e0 :
  name ∈ glob w (str_replace first_file "_001_" "*") →
  files w !! name = Some (Unreadable e0) →
  ∃ failed e,
    failed ∈ glob w (str_replace first_file "_001_" "*") ∧
    files w !! failed = Some (Unreadable e) ∧
    agg_file w first_file = (Raise e, print w first_file) ∧
    files (agg_file w first_file).2 = files w.
Proof.
  intros Hin Hfile. unfold agg_file.
  set (w1 := print w first_file).
  set (names := sort (glob w1 (str_replace first_file "_001_" "*"))).
  assert (Hnames : ∀ x, x ∈ names → x ∈ glob w (str_replace first_file "_001_" "*")).
  { intros x Hx. exact (proj1 (elem_of_sort _ _) Hx). }
  destruct (map_result (load_file w1) names) as [all_data|e] eqn:Hload.
  - assert (raises (map_result (load_file w1) names)) as [e He].
    { apply (map_result_raises _ _ name).
      - exact (proj2 (elem_of_sort _ _) Hin).
      - exists e0. unfold load_file. simpl. by rewrite Hfile. }
    congruence.
  - apply map_result_Raise in Hload as (x & Hx & Hload).
    exists x, e. split; [by apply Hnames|]. split; [|done].
    apply (load_file_globbed w (str_replace first_file "_001_" "*") x);
      [by apply Hnames | exact Hload].
Qed.

End Loading.

Lemma unreadable_tile_aborts_witness :
  files world_unreadable !! "out_002_a" = Some (Unreadable "ValueError") ∧
  agg_file world_unreadable "out_001_a" =
    (Raise "ValueError", print world_unreadable "out_001_a") ∧
  ∃ failed e,
    failed ∈ glob world_unreadable (str_replace "out_001_a" "_001_" "*") ∧
    files world_unreadable !! failed = Some (Unreadable e) ∧
    agg_file world_unreadable "out_001_a" =
      (Raise e, print world_unreadable "out_001_a") ∧
    files (agg_file world_unreadable "out_001_a").2 = files world_unreadable.
Proof.
  split; [reflexivity|]. split; [vm_compute; reflexivity|].
  apply (unreadable_tile_aborts world_unreadable "out_001_a" "out_002_a"
           "ValueError").
  - vm_compute. right; left.
  - reflexivity.
Defined.

(** C5, as stated, fails: with the second tile of the group missing,
    [agg_file] raises nothing and writes the output file, in which the
    cells of the missing tile are zero. *)
Lemma missing_tile_counterexample :
  files world_complete !! "out_002_a" = Some (NetCDF right_tile) ∧
  files world_missing !! "out_002_a" = None ∧
  (agg_file world_missing "out_001_a").1 = Ok () ∧
  ∃ g p,
    files (agg_file world_missing "out_001_a").2 !! "out_a" = Some (NetCDF g) ∧
    assoc "p" (ds_variables g) = Some p ∧
    shape (da_values p) = [2; 4]%nat ∧
    cells (da_values p) = [100; 101; 0; 0; 103; 104; 0; 0].
Proof.
  split; [reflexivity|]. split; [reflexivity|].
  split; [vm_compute; reflexivity|].
  eexists (Dataset _ _), (DataArray _ _ (NdArray _ _)).
  split; [vm_compute; reflexivity|]. by vm_compute.
Qed.

(** ** The domain attributes of the other tiles *)

Section OtherDomains.

Context {val : Type} `{!Dtype val}.
Implicit Types (w : world val) (d : dataset val).

Lemma map_result_ext {A B} (f g : A → result B) xs :
  (∀ x, x ∈ xs → f x = g x) → map_result f xs = map_result g xs.
Proof.
  induction xs as [|x xs IH]; intros Hfg; simpl; [done|].
  rewrite (Hfg x) by left. rewrite IH; [done|].
  intros y Hy. apply Hfg. by right.
Qed.

Lemma map_result_rel {A B C} (P : B → C → Prop)
    (f : A → result B) (g : A → result C) xs :
  (∀ x, x ∈ xs → result_rel P (f x) (g x)) →
  result_rel (Forall2 P) (map_result f xs) (map_result g xs).
Proof.
  induction xs as [|x xs IH]; intros Hfg; simpl; [constructor|].
  pose proof (Hfg x ltac:(left)) as Hx.
  assert (IH' : result_rel (Forall2 P) (map_result f xs) (map_result g xs)).
  { apply IH. intros y Hy. apply Hfg. by right. }
  destruct (f x), (g x); simpl in *; try done.
  destruct (map_result f xs), (map_result g xs); simpl in *; try done.
  by constructor.
Qed.

Lemma for_each_Forall2 {A S} (body : S → A → result S) xs ys s :
  Forall2 (λ x y, ∀ s, body s x = body s y) xs ys →
  for_each xs body s = for_each ys body s.
Proof.
  intros H. revert s. induction H as [|x y xs ys Hxy _ IH]; intros s; simpl.
  - done.
  - rewrite Hxy. destruct (body s y); simpl; [apply IH | done].
Qed.

Lemma get_dims_ext d d' section :
  (∀ key, key ∈ get_dims_keys section →
          ds_attrs d !! key = ds_attrs d' !! key) →
  get_dims d section = get_dims d' section.
Proof.
  intros H. unfold get_dims. apply map_result_ext.
  intros key Hkey. unfold attrs_get. by rewrite (H key Hkey).
Qed.

(** The attributes of the memory and tile sections are other attributes
    than those of the domain section. *)
Lemma memory_keys_not_domain key :
  key ∈ get_dims_keys "m" → key ∉ get_dims_keys "d".
Proof.
  revert key. apply Forall_forall.
  apply (bool_decide_unpack _). by vm_compute.
Qed.

Lemma tile_keys_not_domain key :
  key ∈ get_dims_keys "t" → key ∉ get_dims_keys "d".
Proof.
  revert key. apply Forall_forall.
  apply (bool_decide_unpack _). by vm_compute.
Qed.

Lemma copy_tile_same_but_domain dom (data_set : dataset val) d d' :
  same_but_domain d d' → copy_tile dom data_set d = copy_tile dom data_set d'.
Proof.
  intros [Hvars Hattrs]. unfold copy_tile, get_extent.
  rewrite (get_dims_ext d d' "m"), (get_dims_ext d d' "t"), Hvars; [done|..].
  - intros key Hkey. by apply Hattrs, tile_keys_not_domain.
  - intros key Hkey. by apply Hattrs, memory_keys_not_domain.
Qed.

(** The tiles after the first contribute their memory and tile sections
    and their variables, and nothing else. *)
Lemma aggregate_other_domains d0 (rest rest' : list (dataset val)) :
  Forall2 same_but_domain rest rest' →
  aggregate (d0 :: rest) = aggregate (d0 :: rest').
Proof.
  intros Hrest. unfold aggregate. simpl.
  destruct (set_up_dataset d0) as [data_set|]; simpl; [|done].
  destruct (get_extent d0 "d") as [dom|]; simpl; [|done].
  destruct (copy_tile dom data_set d0) as [data_set'|]; simpl; [|done].
  apply for_each_Forall2.
  eapply Forall2_impl; [exact Hrest|].
  intros d d' Hd s. by apply copy_tile_same_but_domain.
Qed.

Lemma load_file_same_but_domains w w' name :
  same_but_domains w w' →
  result_rel same_but_domain (load_file w name) (load_file w' name).
Proof.
  intros [_ Hfiles]. specialize (Hfiles name). unfold load_file.
  destruct Hfiles as [f f' Hf|]; simpl; [|done].
  by destruct f, f'.
Qed.

Lemma glob_same_but_domains w w' pattern :
  same_but_domains w w' → glob w pattern = glob w' pattern.
Proof.
  intros [_ Hfiles]. unfold glob.
  assert (dom (files w) = dom (files w')) as ->; [|done].
  apply set_eq. intros name. rewrite !elem_of_dom.
  destruct (Hfiles name) as [f f' _|]; [|by split; intros [? ?]].
  split; eauto.
Qed.

(** C10. The placement of every tile is computed from the domain attributes
    of the first dataset of the sorted group: whatever the domain attributes
    of the other tiles are, [agg_file] ends the same way and writes the same
    dataset. *)
Theorem other_domain_attrs_ignored w w' first_file :
  same_but_domains w w' →
  (∀ name,
     head (sort (glob w (str_replace first_file "_001_" "*"))) = Some name →
     files w !! name = files w' !! name) →
  (agg_file w first_file).1 = (agg_file w' first_file).1 ∧
  ((agg_file w first_file).1 = Ok () →
   ∃ g, files (agg_file w first_file).2 !! str_replace first_file "_001_" "_"
          = Some (NetCDF g) ∧
        files (agg_file w' first_file).2 !! str_replace first_file "_001_" "_"
          = Some (NetCDF g)).
Proof.
  intros Hww' Hfirst.
  assert (Hprint : same_but_domains (print w first_file) (print w' first_file)).
  { destruct Hww' as [Hout Hfiles]. split; [|done]. simpl. by rewrite Hout. }
  unfold agg_file.
  rewrite <- (glob_same_but_domains _ _ _ Hprint).
  set (w1 := print w first_file) in *. set (w1' := print w' first_file) in *.
  change (glob w (str_replace first_file "_001_" "*"))
    with (glob w1 (str_replace first_file "_001_" "*")) in Hfirst.
  set (names := sort (glob w1 (str_replace first_file "_001_" "*"))) in *.
  assert (Hsame :
    (all_data ← map_result (load_file w1) names; aggregate all_data) =
    (all_data ← map_result (load_file w1') names; aggregate all_data)).
  { destruct names as [|n0 rest]; [done|]. simpl.
    assert (load_file w1 n0 = load_file w1' n0) as <-.
    { unfold load_file. simpl. by rewrite (Hfirst n0 eq_refl). }
    destruct (load_file w1 n0) as [d0|]; simpl; [|done].
    pose proof (map_result_rel same_but_domain (load_file w1) (load_file w1')
                  rest (λ x _, load_file_same_but_domains w1 w1' x Hprint))
      as Hrest.
    destruct (map_result (load_file w1) rest),
      (map_result (load_file w1') rest); simpl in *; try done.
    - by apply aggregate_other_domains.
    - by subst. }
  rewrite <- Hsame.
  destruct (all_data ← map_result (load_file w1) names; aggregate all_data)
    as [g|e]; simpl.
  - split; [done|]. intros _. exists g. by rewrite !lookup_insert_eq.
  - split; [done|]. by intros [=].
Qed.

End OtherDomains.

Lemma other_domain_attrs_ignored_witness :
  get_extent right_tile "d" = Ok (0, 3, 0, 1, 0, 0) ∧
  get_extent right_tile_other_domain "d" = Ok (5, 50, 7, 70, 9, 90) ∧
  (agg_file world_complete "out_001_a").1 =
    (agg_file world_other_domain "out_001_a").1 ∧
  ((agg_file world_complete "out_001_a").1 = Ok () →
   ∃ g, files (agg_file world_complete "out_001_a").2
          !! str_replace "out_001_a" "_001_" "_" = Some (NetCDF g) ∧
        files (agg_file world_other_domain "out_001_a").2
          !! str_replace "out_001_a" "_001_" "_" = Some (NetCDF g)).
Proof.
  split; [vm_compute; reflexivity|]. split; [vm_compute; reflexivity|].
  apply (other_domain_attrs_ignored world_complete world_other_domain
           "out_001_a").
  - split; [reflexivity|]. intros name. simpl.
    destruct (decide (name = "out_001_a")) as [->|Hne1].
    { rewrite !lookup_insert_eq. constructor. simpl. split; [done|]. done. }
    rewrite !(lookup_insert_ne _ "out_001_a") by done.
    destruct (decide (name = "out_002_a")) as [->|Hne2].
    { rewrite !lookup_insert_eq. constructor. simpl. split; [done|].
      intros key Hkey. unfold right_tile, right_tile_other_domain, extent_attrs.
      simpl. rewrite get_dims_keys_eq in Hkey. simpl in Hkey.
      repeat (rewrite lookup_insert_ne; [|set_solver]).
      symmetry. repeat (rewrite lookup_insert_ne; [|set_solver]).
      done. }
    rewrite !(lookup_insert_ne _ "out_002_a") by done.
    rewrite lookup_empty. constructor.
  - intros name Hname. vm_compute in Hname. by injection Hname as <-.
Defined.

(** * Further properties of the code *)

#[local] Open Scope list_scope.

(** ** What the template keeps of the reference tile *)

Section TemplateLayout.

Context {val : Type} `{!Dtype val}.
Implicit Types (d g : dataset val).

Lemma all_zero_tabulate (sh : list nat) :
  all_zero (tabulate (val:=val) sh (λ _, zero)).
Proof.
  unfold all_zero, tabulate. simpl. apply Forall_fmap, Forall_forall. done.
Qed.

Lemma np_zeros_all_zero (sh : list Z) (z : ndarray val) :
  np_zeros sh = Ok z → all_zero z.
Proof. intros [_ ->]%np_zeros_Ok. apply all_zero_tabulate. Qed.

(** One round of the loop binds [data] to an array of zeros, or keeps the
    one it had, and files it under the variable's name with the variable's
    dimension names and attributes. *)
Lemma set_up_variable_entry d nx ny nz data data_vars v var st' :
  set_up_variable d nx ny (nz, data, data_vars) (v, var) = Ok st' →
  (∀ z, data = Some z → all_zero z) →
  ∃ nz' z,
    st' = (nz', Some z,
           dict_set v (DataArray (da_dims var) (da_attrs var) z) data_vars) ∧
    all_zero z.
Proof.
  intros Hstep Hdata. unfold set_up_variable in Hstep.
  destruct (get_dim_offset (da_dims var)) as [x_off y_off].
  assert (Htail : ∀ (o : option (ndarray val)) (nz0 : Z),
    (∀ z, o = Some z → all_zero z) →
    (z ← read_local o;
     da ← new_data_array z (da_dims var) (da_attrs var);
     Ok (nz0, Some z, dict_set v da data_vars)) = Ok st' →
    ∃ nz' z,
      st' = (nz', Some z,
             dict_set v (DataArray (da_dims var) (da_attrs var) z) data_vars) ∧
      all_zero z).
  { intros [z0|] nz0 Hz0; simpl; [|done]. unfold new_data_array.
    destruct (Nat.eqb (length (shape z0)) _); simpl; [|done].
    intros [= <-]. exists nz0, z0. split; [done|]. by apply Hz0. }
  destruct (da_dims var) as [|d0 [|d1 [|d2 [|d3 [|d4 rest]]]]] eqn:Hdims;
    simpl in Hstep.
  - exact (Htail data nz Hdata Hstep).
  - exact (Htail data nz Hdata Hstep).
  - destruct (np_zeros _) as [z|] eqn:Hz; simpl in Hstep; [|done].
    apply (Htail (Some z) nz); [|exact Hstep].
    intros ? [= <-]. by apply np_zeros_all_zero in Hz.
  - destruct (ds_dims d d0) as [n0|]; simpl in Hstep; [|done].
    destruct (np_zeros _) as [z|] eqn:Hz; simpl in Hstep; [|done].
    apply (Htail (Some z) nz); [|exact Hstep].
    intros ? [= <-]. by apply np_zeros_all_zero in Hz.
  - destruct (ds_dims d d0) as [nt|]; simpl in Hstep; [|done].
    destruct (ds_dims d d1) as [nz1|]; simpl in Hstep; [|done].
    destruct (np_zeros _) as [z|] eqn:Hz; simpl in Hstep; [|done].
    apply (Htail (Some z) (Z.of_nat nz1)); [|exact Hstep].
    intros ? [= <-]. by apply np_zeros_all_zero in Hz.
  - exact (Htail data nz Hdata Hstep).
Qed.

Lemma dict_set_fresh {A} (k : string) (x : A) (l : list (string * A)) :
  k ∉ l.*1 → dict_set k x l = l ++ [(k, x)].
Proof.
  induction l as [|[k' x'] l IH]; simpl; [done|].
  intros Hk. apply not_elem_of_cons in Hk as [Hne Hk].
  destruct (String.eqb_spec k k'); [done|]. by rewrite IH.
Qed.

Lemma set_up_loop_layout d nx ny (done_ rest : list (string * data_array val))
    nz data data_vars st' :
  NoDup (done_ ++ rest).*1 →
  (∀ z, data = Some z → all_zero z) →
  Forall2 (λ e0 e, same_variable e0 e ∧ all_zero (da_values e.2))
    done_ data_vars →
  for_each rest (set_up_variable d nx ny) (nz, data, data_vars) = Ok st' →
  Forall2 (λ e0 e, same_variable e0 e ∧ all_zero (da_values e.2))
    (done_ ++ rest) st'.2.
Proof.
  revert done_ nz data data_vars.
  induction rest as [|[v var] rest IH]; intros done_ nz data data_vars;
    simpl.
  - intros _ _ Hdone [= <-]. by rewrite app_nil_r.
  - intros Hnodup Hdata Hdone. rewrite bind_Ok. intros (st1 & Hstep & Hloop).
    apply set_up_variable_entry in Hstep as (nz1 & z & -> & Hz); [|done].
    assert (Hv : v ∉ data_vars.*1).
    { assert (data_vars.*1 = done_.*1) as ->.
      { clear -Hdone. induction Hdone as [|[??] [??] ?? [[Hn _] _] _ IH'];
          simpl in *; [done|]. by f_equal. }
      rewrite fmap_app in Hnodup. simpl in Hnodup.
      apply NoDup_app in Hnodup as (_ & Hv & _).
      intros Hin. apply (Hv v Hin). by left. }
    replace (done_ ++ (v, var) :: rest) with ((done_ ++ [(v, var)]) ++ rest)
      in * by (by rewrite <- app_assoc).
    apply (IH (done_ ++ [(v, var)]) nz1 (Some z)
              (dict_set v (DataArray (da_dims var) (da_attrs var) z) data_vars));
      [done | by intros ? [= <-] | | done].
    rewrite dict_set_fresh by done.
    apply Forall2_app; [done|]. by repeat constructor.
Qed.

(** X1. With distinct variable names in the reference tile, the template
    has the global attributes of the tile and, in the same order, one
    variable per variable of the tile, with the same name, dimension names
    and attributes, and with zero in every cell. *)
Theorem template_keeps_metadata d g :
  NoDup (ds_variables d).*1 →
  set_up_dataset d = Ok g →
  ds_attrs g = ds_attrs d ∧
  Forall2 (λ e0 e, same_variable e0 e ∧ all_zero (da_values e.2))
    (ds_variables d) (ds_variables g).
Proof.
  intros Hnodup. unfold set_up_dataset. rewrite bind_Ok.
  intros ([[[[[ids ide] jds] jde] kds] kde] & _ & H).
  apply bind_Ok in H as ([[nz data] data_vars] & Hloop & Hnew).
  unfold new_dataset in Hnew. destruct (consistent_sizes _); [|done].
  injection Hnew as <-. split; [done|]. simpl.
  by apply (set_up_loop_layout d (ide - ids + 1) (jde - jds + 1) []
              (ds_variables d) (kde - kds + 1) None [] (nz, data, data_vars)).
Qed.

End TemplateLayout.

Lemma template_keeps_metadata_witness :
  ∃ g,
    set_up_dataset left_tile = Ok g ∧
    ds_attrs g = ds_attrs left_tile ∧
    Forall2 (λ e0 e, same_variable e0 e ∧ all_zero (da_values e.2))
      (ds_variables left_tile) (ds_variables g).
Proof.
  eexists. split; [vm_compute; reflexivity|].
  apply template_keeps_metadata; [|vm_compute; reflexivity].
  apply (bool_decide_unpack _). by vm_compute.
Defined.


(** ** File names: the search pattern and the name of the output *)

Lemma replace_from_absent (old new s : list ascii) :
  contains_from old s = false → replace_from old new 0 s = s.
Proof.
  induction s as [|c r IH]; simpl; [done|].
  intros [Hhere Hlater]%orb_false_elim.
  simpl in Hhere. rewrite Hhere. by rewrite IH.
Qed.

Lemma str_replace_absent (s old new : string) :
  str_contains s old = false → str_replace s old new = s.
Proof.
  unfold str_contains, str_replace. intros H.
  rewrite replace_from_absent by done.
  apply string_of_list_ascii_of_string.
Qed.

Lemma fnmatch_from_star (pat s : list ascii) (c : ascii) :
  fnmatch_from pat s = true →
  fnmatch_from ("*"%char :: pat) (c :: s) = true.
Proof.
  intros H. simpl. destruct (fnmatch_from pat (c :: s)); [done|]. simpl.
  destruct s; by rewrite H.
Qed.

Lemma fnmatch_from_same (pat s : list ascii) (c : ascii) :
  fnmatch_from pat s = true →
  fnmatch_from (c :: pat) (c :: s) = true.
Proof.
  intros H. destruct (Ascii.eqb_spec c "*") as [->|Hc].
  - by apply fnmatch_from_star.
  - simpl. apply Ascii.eqb_neq in Hc. rewrite Hc.
    by rewrite Ascii.eqb_refl, orb_true_r, H.
Qed.

(** The name with [old] replaced by "_" matches the pattern with [old]
    replaced by "*". *)
Lemma fnmatch_replace_from (old : list ascii) (skip : nat) (s : list ascii) :
  fnmatch_from (replace_from old ["*"%char] skip s)
    (replace_from old ["_"%char] skip s) = true.
Proof.
  revert skip. induction s as [|c r IH]; intros skip; [done|].
  cbn [replace_from]. destruct skip as [|k]; [|apply IH].
  destruct (starts_with old (c :: r)).
  - apply fnmatch_from_star, IH.
  - apply fnmatch_from_same, IH.
Qed.

Lemma fnmatch_output (first_file old : string) :
  fnmatch (str_replace first_file old "_") (str_replace first_file old "*")
  = true.
Proof.
  unfold fnmatch, str_replace.
  rewrite !list_ascii_of_string_of_list_ascii.
  apply fnmatch_replace_from.
Qed.

Section Names.

Context {val : Type} `{!Dtype val}.
Implicit Types (w : world val).

(** What [agg_file] does to the directory: nothing when it raises, and the
    one output file when it returns. *)
Lemma agg_file_files w first_file :
  match (agg_file w first_file).1 with
  | Ok _ =>
      ∃ g, files (agg_file w first_file).2 =
             <[str_replace first_file "_001_" "_" := NetCDF g]> (files w)
  | Raise _ => files (agg_file w first_file).2 = files w
  end.
Proof.
  unfold agg_file.
  destruct (all_data ← map_result _ _; aggregate all_data) as [g|e]; simpl.
  - by exists g.
  - done.
Qed.


(** X2. When the name of the first file does not contain "_001_", the
    search pattern and the output name are both that name, so a successful
    [agg_file] writes the aggregate over the first file itself. *)
Theorem output_overwrites_first_file w first_file :
  str_contains first_file "_001_" = false →
  (agg_file w first_file).1 = Ok () →
  ∃ g, files (agg_file w first_file).2 = <[first_file := NetCDF g]> (files w).
Proof.
  intros Habsent Hok. pose proof (agg_file_files w first_file) as H.
  rewrite Hok in H. by rewrite (str_replace_absent _ _ _ Habsent) in H.
Qed.

(** X3. After a successful [agg_file], the output file is one of the files
    the search pattern of the same time step finds: a second run on the
    same first file loads the aggregate as one more tile.  (The name is
    taken without "[", since the patterns of [fnmatch] are modelled without
    character classes.) *)
Theorem output_matches_pattern w first_file :
  str_contains first_file "[" = false →
  (agg_file w first_file).1 = Ok () →
  str_replace first_file "_001_" "_"
    ∈ glob (agg_file w first_file).2 (str_replace first_file "_001_" "*").
Proof.
  intros _ Hok. pose proof (agg_file_files w first_file) as H.
  rewrite Hok in H. destruct H as [g Hfiles].
  unfold glob. rewrite Hfiles.
  apply list_elem_of_filter. split; [apply fnmatch_output|].
  apply elem_of_elements, elem_of_dom. rewrite lookup_insert_eq. by eexists.
Qed.

(** X4. When no file matches the search pattern, [agg_file] ends with
    [IndexError] at [all_data[0]] and writes nothing. *)
Theorem empty_group_raises w first_file :
  glob w (str_replace first_file "_001_" "*") = [] →
  agg_file w first_file = (Raise "IndexError", print w first_file).
Proof.
  intros Hglob. unfold agg_file.
  change (glob (print w first_file) (str_replace first_file "_001_" "*"))
    with (glob w (str_replace first_file "_001_" "*")).
  by rewrite Hglob.
Qed.



(** X6. A variable of a tile that the template does not have ends the copy
    with [KeyError], when its rank is 2, 3 or 4. *)
Theorem unknown_variable_raises dom mem tile (data_set : dataset val)
    (v : string) (var : data_array val) :
  assoc v (ds_variables data_set) = None →
  (2 ≤ length (da_dims var) ≤ 4)%nat →
  length (shape (da_values var)) = length (da_dims var) →
  copy_variable dom mem tile data_set (v, var) = Raise "KeyError".
Proof.
  intros Hnone Hrank Hshape.
  destruct dom as [[[[[ids ide] jds] jde] kds] kde],
    mem as [[[[[ims ime] jms] jme] kms] kme],
    tile as [[[[[its ite] jts] jte] kts] kte].
  unfold copy_variable, local_range, global_range.
  destruct (get_dim_offset (da_dims var)) as [x_off y_off].
  assert (Hassign : ∀ dst src,
    length src = length (da_dims var) →
    assign data_set v dst (da_values var) src = Raise "KeyError").
  { intros dst src Hsrc. unfold assign, getitem.
    rewrite Hshape, <- Hsrc, Nat.ltb_irrefl. simpl.
    unfold ds_get. by rewrite Hnone. }
  destruct (da_dims var) as [|d0 [|d1 [|d2 [|d3 [|d4 rest]]]]] eqn:Hdims;
    simpl in Hrank; try lia; simpl.
  - by rewrite Hassign.
  - destruct (String.eqb d0 "time"); by rewrite Hassign.
  - by rewrite Hassign.
Qed.

End Names.


(** ** Arrays: reading what was written *)

Section ArrayFacts.

Context {val : Type} `{!Dtype val}.
Implicit Types (a v : ndarray val) (sh idx : list nat).

Lemma in_bounds_Forall2 sh idx :
  in_bounds sh idx = true ↔ Forall2 (λ i n, i < n)%nat idx sh.
Proof.
  revert idx. induction sh as [|n sh IH]; intros [|i idx]; simpl.
  - split; [constructor | done].
  - split; [done | inversion 1].
  - split; [done | inversion 1].
  - rewrite andb_true_iff, Nat.ltb_lt, IH. split.
    + intros [??]. by constructor.
    + by inversion 1.
Qed.

Lemma length_bind_seq {B} (f : nat → list B) (m start n : nat) :
  (∀ i, length (f i) = m) → length (seq start n ≫= f) = (n * m)%nat.
Proof.
  intros Hf. revert start. induction n as [|n IH]; intros start; [done|].
  cbn [seq]. rewrite bind_cons, length_app, Hf, IH. lia.
Qed.

Lemma lookup_bind_seq {B} (f : nat → list B) (m start n i j : nat) :
  (∀ i, length (f i) = m) → (i < n)%nat → (j < m)%nat →
  (seq start n ≫= f) !! (i * m + j)%nat = f (start + i)%nat !! j.
Proof.
  intros Hf. revert start i. induction n as [|n IH]; intros start i Hi Hj;
    [lia|].
  cbn [seq]. rewrite bind_cons. destruct i as [|i].
  - rewrite lookup_app_l by (rewrite Hf; lia). by rewrite Nat.add_0_r.
  - rewrite lookup_app_r by (rewrite Hf; lia). rewrite Hf.
    replace (S i * m + j - m)%nat with (i * m + j)%nat by lia.
    rewrite IH by lia. by replace (S start + i)%nat with (start + S i)%nat by lia.
Qed.

Lemma length_indices sh : length (indices sh) = size_of sh.
Proof.
  induction sh as [|n sh IH]; [done|]. cbn [indices].
  rewrite (length_bind_seq _ (size_of sh)); [done|].
  intros i. by rewrite length_fmap.
Qed.

Lemma ravel_lt sh idx :
  in_bounds sh idx = true → (ravel sh idx < size_of sh)%nat.
Proof.
  revert idx. induction sh as [|n sh IH]; intros [|i idx]; simpl; try done.
  - lia.
  - intros [Hi Hidx]%andb_true_iff. apply Nat.ltb_lt in Hi.
    specialize (IH idx Hidx). unfold size_of in *. nia.
Qed.

Lemma lookup_indices sh idx :
  in_bounds sh idx = true → indices sh !! ravel sh idx = Some idx.
Proof.
  revert idx. induction sh as [|n sh IH]; intros [|i idx]; simpl; try done.
  intros [Hi Hidx]%andb_true_iff. apply Nat.ltb_lt in Hi.
  rewrite (lookup_bind_seq _ (size_of sh)).
  - rewrite list_lookup_fmap, IH; done.
  - intros k. by rewrite length_fmap, length_indices.
  - done.
  - by apply ravel_lt.
Qed.

(** Reading a cell of a tabulated array gives the function's value. *)
Lemma item_tabulate sh (f : list nat → val) idx :
  in_bounds sh idx = true → item (tabulate sh f) idx = f idx.
Proof.
  intros Hidx. unfold item, tabulate. simpl. rewrite Hidx.
  by rewrite list_lookup_fmap, lookup_indices.
Qed.

(** *** Slices within bounds *)

Lemma slice_range_from_to (n : nat) (start stop : Z) :
  0 ≤ start → start ≤ stop → stop ≤ Z.of_nat n →
  slice_range n (from_to start stop) = (Z.to_nat start, Z.to_nat (stop - start)).
Proof.
  intros. unfold slice_range, from_to, slice_bound. simpl.
  destruct (Z.ltb_spec start 0), (Z.ltb_spec stop 0); try lia.
  by rewrite !Z.min_l by lia.
Qed.

Lemma slice_range_full (n : nat) : slice_range n full = (0%nat, n).
Proof.
  unfold slice_range, full, slice_bound. simpl.
  by rewrite Z.sub_0_r, Nat2Z.id.
Qed.

(** A slice never leaves its axis. *)
Lemma slice_range_fits (n : nat) (s : slice) :
  ((slice_range n s).1 + (slice_range n s).2 ≤ n)%nat.
Proof.
  destruct s as [[start|] [stop|]]; unfold slice_range, slice_bound; simpl;
    repeat case_match; lia.
Qed.

Lemma length_region sh (sl : list slice) : length (region sh sl) = length sh.
Proof.
  revert sl. induction sh as [|n sh IH]; intros sl; [done|].
  destruct sl; simpl; by rewrite IH.
Qed.

Lemma region_fits sh (sl : list slice) :
  Forall2 (λ r n, r.1 + r.2 ≤ n)%nat (region sh sl) sh.
Proof.
  revert sl. induction sh as [|n sh IH]; intros sl; [constructor|].
  destruct sl as [|s sl]; simpl; constructor; try apply IH.
  - simpl. lia.
  - apply slice_range_fits.
Qed.

(** The positions of a box, relative to its corner, are within the shape of
    the box; shifted by the corner they are within the array. *)
Lemma in_region_relative (r : list (nat * nat)) idx :
  in_region r idx = true → in_bounds (r.*2) (zip_with Nat.sub idx (r.*1)) = true.
Proof.
  revert idx. induction r as [|[lo len] r IH]; intros [|i idx]; simpl;
    try done.
  intros [[Hlo Hhi]%andb_true_iff Hrest]%andb_true_iff.
  apply Nat.leb_le in Hlo. apply Nat.ltb_lt in Hhi.
  rewrite IH by done. rewrite andb_true_r. apply Nat.ltb_lt. lia.
Qed.

Lemma in_bounds_shifted (r : list (nat * nat)) sh rel :
  Forall2 (λ r n, r.1 + r.2 ≤ n)%nat r sh →
  in_bounds (r.*2) rel = true →
  in_bounds sh (zip_with Nat.add (r.*1) rel) = true.
Proof.
  intros Hfits. revert rel.
  induction Hfits as [|[lo len] n r sh Hr _ IH]; intros [|i rel]; simpl;
    try done.
  intros [Hi Hrel]%andb_true_iff. apply Nat.ltb_lt in Hi.
  rewrite IH by done. rewrite andb_true_r. apply Nat.ltb_lt.
  simpl in Hr. lia.
Qed.

(** *** Broadcasting a value of the shape of the box *)

Lemma bcast_ok_rev_refl (l : list nat) : bcast_ok_rev l l = true.
Proof.
  induction l as [|n l IH]; [done|]. simpl.
  by rewrite Nat.eqb_refl, IH.
Qed.

Lemma bcast_ok_refl (l : list nat) : bcast_ok l l = true.
Proof. apply bcast_ok_rev_refl. Qed.

Lemma bcast_index_rev_id (l idx : list nat) :
  Forall2 (λ i n, i < n)%nat idx l → bcast_index_rev l idx = idx.
Proof.
  induction 1 as [|i n idx l Hi _ IH]; [done|]. simpl.
  rewrite IH. destruct (Nat.eqb_spec n 1); [|done]. f_equal. lia.
Qed.

Lemma Forall2_rev_rev {A B} (P : A → B → Prop) (l : list A) (k : list B) :
  Forall2 P l k → Forall2 P (rev l) (rev k).
Proof.
  induction 1 as [|x y l k Hxy _ IH]; simpl; [constructor|].
  apply Forall2_app; [done|]. by repeat constructor.
Qed.

Lemma bcast_index_id (l idx : list nat) :
  in_bounds l idx = true → bcast_index l idx = idx.
Proof.
  intros H%in_bounds_Forall2. unfold bcast_index.
  rewrite bcast_index_rev_id; [apply rev_involutive|].
  by apply Forall2_rev_rev.
Qed.

(** *** Reading a box and writing it into another array *)

Lemma getitem_Ok a (sl : list slice) :
  (length sl ≤ length (shape a))%nat →
  ∃ rhs, getitem a sl = Ok rhs ∧
    shape rhs = (region (shape a) sl).*2 ∧
    ∀ rel, in_bounds (shape rhs) rel = true →
      item rhs rel = item a (zip_with Nat.add (region (shape a) sl).*1 rel).
Proof.
  intros Hlen. unfold getitem.
  destruct (Nat.ltb_spec (length (shape a)) (length sl)); [lia|].
  eexists. split; [done|]. split; [done|].
  intros rel Hrel. by rewrite item_tabulate.
Qed.

Lemma setitem_Ok a (sl : list slice) v :
  (length sl ≤ length (shape a))%nat →
  shape v = (region (shape a) sl).*2 →
  ∃ a', setitem a sl v = Ok a' ∧
    shape a' = shape a ∧
    ∀ idx, in_bounds (shape a) idx = true →
      item a' idx =
        if in_region (region (shape a) sl) idx
        then item v (zip_with Nat.sub idx (region (shape a) sl).*1)
        else item a idx.
Proof.
  intros Hlen Hshape. unfold setitem.
  destruct (Nat.ltb_spec (length (shape a)) (length sl)); [lia|].
  rewrite Hshape, bcast_ok_refl.
  eexists. split; [done|]. split; [done|].
  intros idx Hidx. rewrite item_tabulate by done.
  destruct (in_region _ idx) eqn:Hin; [|done].
  by rewrite bcast_index_id by by apply in_region_relative.
Qed.

(** [a[dst] = v[src]] for two boxes of the same shape: inside the box of
    [a], a cell gets the cell of [v] at the same place in the box of [v];
    outside, it keeps its value. *)
Lemma copy_box a v (dst src : list slice) :
  (length dst ≤ length (shape a))%nat →
  (length src ≤ length (shape v))%nat →
  (region (shape a) dst).*2 = (region (shape v) src).*2 →
  ∃ a', (rhs ← getitem v src; setitem a dst rhs) = Ok a' ∧
    shape a' = shape a ∧
    ∀ idx, in_bounds (shape a) idx = true →
      item a' idx =
        if in_region (region (shape a) dst) idx
        then item v (zip_with Nat.add (region (shape v) src).*1
                       (zip_with Nat.sub idx (region (shape a) dst).*1))
        else item a idx.
Proof.
  intros Hdst Hsrc Hsame.
  destruct (getitem_Ok v src Hsrc) as (rhs & -> & Hrhs & Hread). simpl.
  destruct (setitem_Ok a dst rhs Hdst) as (a' & -> & Ha' & Hwrite);
    [by rewrite Hrhs|].
  exists a'. split; [done|]. split; [done|].
  intros idx Hidx. rewrite Hwrite by done.
  destruct (in_region _ idx) eqn:Hin; [|done].
  apply Hread. rewrite Hrhs, <- Hsame. by apply in_region_relative.
Qed.

End ArrayFacts.


(** ** The copy of one variable of one tile *)

Section CopyFacts.

Context {val : Type} `{!Dtype val}.
Implicit Types (d data_set : dataset val) (var : data_array val).

Lemma copy_variable_plan (dom mem tile : extent) data_set v var :
  copy_variable dom mem tile data_set (v, var) =
  match plan_of (da_dims var) with
  | Some plan =>
      assign data_set v (plan_slice dom tile <$> plan) (da_values var)
        (plan_slice mem tile <$> plan)
  | None => Ok data_set
  end.
Proof.
  destruct dom as [[[[[ids ide] jds] jde] kds] kde],
    mem as [[[[[ims ime] jms] jme] kms] kme],
    tile as [[[[[its ite] jts] jte] kts] kte].
  unfold copy_variable, plan_of, local_range, global_range.
  destruct (get_dim_offset (da_dims var)) as [x_off y_off].
  destruct (da_dims var) as [|d0 [|d1 [|d2 [|d3 [|d4 rest]]]]]; simpl;
    try done.
  - rewrite !Z.add_0_r. by destruct (assign _ _ _ _ _).
  - destruct (String.eqb d0 "time"); simpl; rewrite ?Z.add_0_r;
      by destruct (assign _ _ _ _ _).
  - rewrite !Z.add_0_r. by destruct (assign _ _ _ _ _).
Qed.

(** The box of a slice that fits. *)
Lemma region_plan (origin tile : extent) (plan : list axis_plan)
    (sh : list nat) :
  Forall2 (fits origin tile) plan sh →
  region sh (plan_slice origin tile <$> plan) =
  zip_with (box origin tile) plan sh.
Proof.
  induction 1 as [|p n plan sh Hp _ IH]; [done|].
  rewrite fmap_cons. cbn [region zip_with]. rewrite IH.
  f_equal. destruct p as [|a widen]; simpl.
  - apply slice_range_full.
  - destruct Hp as (? & ? & ?).
    rewrite slice_range_from_to by lia. f_equal. f_equal. lia.
Qed.

Lemma axis_ok_fits dom mem tile plan sh vsh :
  Forall3 (axis_ok dom mem tile) plan sh vsh →
  Forall2 (fits dom tile) plan sh ∧ Forall2 (fits mem tile) plan vsh ∧
  (zip_with (box dom tile) plan sh).*2 = (zip_with (box mem tile) plan vsh).*2.
Proof.
  induction 1 as [|p n m plan sh vsh Hp _ (IH1 & IH2 & IH3)]; [done|].
  cbn [zip_with]. rewrite !fmap_cons, IH3.
  destruct p as [|a widen]; simpl in *.
  - subst. repeat split; by constructor.
  - destruct Hp. repeat split; by constructor.
Qed.

(** For a position of the global array, being in the box of the tile is
    being covered by the tile, and the position read is [source_index]. *)
Lemma in_region_covered dom mem tile plan sh vsh idx :
  Forall3 (axis_ok dom mem tile) plan sh vsh →
  in_bounds sh idx = true →
  in_region (zip_with (box dom tile) plan sh) idx = covered dom tile plan idx ∧
  (covered dom tile plan idx = true →
   zip_with Nat.add (zip_with (box mem tile) plan vsh).*1
     (zip_with Nat.sub idx (zip_with (box dom tile) plan sh).*1)
   = source_index dom mem plan idx).
Proof.
  intros H. revert idx.
  induction H as [|p n m plan sh vsh Hp _ IH]; intros [|i idx]; simpl;
    try done.
  intros [Hi Hidx]%andb_true_iff. apply Nat.ltb_lt in Hi.
  destruct (IH idx Hidx) as [IH1 IH2]. unfold covered, source_index in *.
  destruct p as [|a widen]; simpl in *.
  - rewrite IH1. split.
    + by destruct (Nat.ltb_spec i n); [|lia].
    + intros Hrest. f_equal; [lia | by apply IH2].
  - destruct Hp as [(? & ? & ?) (? & ? & ?)]. rewrite IH1. split.
    + f_equal.
      destruct (Z.leb_spec (ext_start tile a) (Z.of_nat i + ext_start dom a)),
        (Z.leb_spec (Z.of_nat i + ext_start dom a) (ext_end tile a + widen));
        simpl.
      * apply andb_true_iff. split; [apply Nat.leb_le | apply Nat.ltb_lt]; lia.
      * apply andb_false_iff. right. apply Nat.ltb_ge. lia.
      * apply andb_false_iff. left. apply Nat.leb_gt. lia.
      * apply andb_false_iff. left. apply Nat.leb_gt. lia.
    + intros [[?%Z.leb_le ?%Z.leb_le]%andb_true_iff Hrest]%andb_true_iff.
      f_equal; [lia | by apply IH2].
Qed.

End CopyFacts.


(** ** Datasets under the copy *)

Section DatasetFacts.

Context {val : Type} `{!Dtype val}.
Implicit Types (d data_set g : dataset val) (var : data_array val).

Lemma assoc_dict_set_eq {A} (k : string) (x : A) l :
  assoc k (dict_set k x l) = Some x.
Proof.
  induction l as [|[k' x'] l IH]; simpl.
  - by rewrite String.eqb_refl.
  - destruct (String.eqb_spec k k') as [->|Hne]; simpl.
    + by rewrite String.eqb_refl.
    + by destruct (String.eqb_spec k k').
Qed.

Lemma assoc_dict_set_ne {A} (k k' : string) (x : A) l :
  k' ≠ k → assoc k' (dict_set k x l) = assoc k' l.
Proof.
  intros Hne. induction l as [|[k0 x0] l IH]; simpl.
  - by destruct (String.eqb_spec k' k).
  - destruct (String.eqb_spec k k0) as [->|Hk]; simpl.
    + by destruct (String.eqb_spec k' k0).
    + destruct (String.eqb_spec k' k0); [done | apply IH].
Qed.

Lemma assoc_elem_of {A} (k : string) (x : A) l :
  assoc k l = Some x → (k, x) ∈ l.
Proof.
  induction l as [|[k' x'] l IH]; simpl; [done|].
  destruct (String.eqb_spec k k') as [->|Hne].
  - intros [= ->]. left.
  - intros H. right. by apply IH.
Qed.

Lemma assoc_None {A} (k : string) (l : list (string * A)) :
  k ∉ l.*1 → assoc k l = None.
Proof.
  induction l as [|[k' x'] l IH]; simpl; [done|].
  intros [Hne Hk]%not_elem_of_cons.
  destruct (String.eqb_spec k k'); [done | by apply IH].
Qed.

(** Where a name is bound in a dict without repeated keys. *)
Lemma assoc_split {A} (k : string) (x : A) l :
  NoDup l.*1 → assoc k l = Some x →
  ∃ l1 l2, l = l1 ++ (k, x) :: l2 ∧ (k ∉ l1.*1) ∧ (k ∉ l2.*1).
Proof.
  intros Hnodup Hk. apply assoc_elem_of, list_elem_of_split in Hk
    as (l1 & l2 & ->).
  exists l1, l2. split; [done|].
  rewrite fmap_app, fmap_cons in Hnodup. simpl in Hnodup.
  apply NoDup_app in Hnodup as (_ & Hl1 & Hl2).
  apply NoDup_cons in Hl2 as [Hl2 _]. split; [|done].
  intros Hin. apply (Hl1 k Hin). left.
Qed.

Lemma for_each_app {A S} (body : S → A → result S) xs ys s :
  for_each (xs ++ ys) body s = (s' ← for_each xs body s; for_each ys body s').
Proof.
  revert s. induction xs as [|x xs IH]; intros s; simpl; [done|].
  destruct (body s x); simpl; [apply IH | done].
Qed.

Lemma setitem_shape (a a' v : ndarray val) (sl : list slice) :
  setitem a sl v = Ok a' → shape a' = shape a.
Proof.
  unfold setitem. destruct (Nat.ltb _ _); [done|].
  destruct (bcast_ok _ _); [|done]. by intros [= <-].
Qed.

Lemma assign_Ok data_set v dst values src g :
  assign data_set v dst values src = Ok g →
  ∃ rhs target new,
    getitem values src = Ok rhs ∧
    assoc v (ds_variables data_set) = Some target ∧
    setitem (da_values target) dst rhs = Ok new ∧
    g = Dataset (ds_attrs data_set)
          (dict_set v (DataArray (da_dims target) (da_attrs target) new)
             (ds_variables data_set)).
Proof.
  unfold assign, ds_get. rewrite bind_Ok. intros (rhs & Hrhs & H).
  destruct (assoc v (ds_variables data_set)) as [target|]; [|done].
  simpl in H. apply bind_Ok in H as (new & Hnew & [= <-]).
  by exists rhs, target, new.
Qed.

(** *** The layout is kept *)

Lemma same_layout_refl g : same_layout g g.
Proof.
  split; [done|]. apply Forall2_same_length_lookup. split; [done|].
  intros i e e' He He'. assert (e = e') as -> by congruence.
  by repeat split.
Qed.

Lemma same_layout_trans g1 g2 g3 :
  same_layout g1 g2 → same_layout g2 g3 → same_layout g1 g3.
Proof.
  intros [Ha1 Hv1] [Ha2 Hv2]. split; [congruence|].
  eapply Forall2_trans; [|exact Hv1|exact Hv2].
  intros e1 e2 e3 [(? & ? & ?) ?] [(? & ? & ?) ?].
  repeat split; congruence.
Qed.

Lemma dict_set_layout (k : string) (target new : data_array val) l :
  assoc k l = Some target →
  da_dims new = da_dims target → da_attrs new = da_attrs target →
  shape (da_values new) = shape (da_values target) →
  Forall2 (λ e0 e, same_variable e0 e ∧
                   shape (da_values e.2) = shape (da_values e0.2))
    l (dict_set k new l).
Proof.
  intros Hk Hdims Hattrs Hshape. induction l as [|[k' x'] l IH]; [done|].
  simpl in *. destruct (String.eqb_spec k k') as [->|Hne].
  - injection Hk as ->. constructor; [by repeat split|].
    apply (same_layout_refl (Dataset ∅ l)).
  - constructor; [by repeat split | by apply IH].
Qed.

Lemma assign_same_layout data_set v dst values src g :
  assign data_set v dst values src = Ok g → same_layout data_set g.
Proof.
  intros (rhs & target & new & _ & Htarget & Hnew & ->)%assign_Ok.
  split; [done|]. simpl. apply (dict_set_layout v target); try done.
  simpl. by apply setitem_shape in Hnew.
Qed.

Lemma copy_variable_same_layout dom mem tile data_set entry g :
  copy_variable dom mem tile data_set entry = Ok g → same_layout data_set g.
Proof.
  destruct entry as [v var]. rewrite copy_variable_plan.
  destruct (plan_of (da_dims var)).
  - apply assign_same_layout.
  - intros [= <-]. apply same_layout_refl.
Qed.

Lemma for_each_same_layout {A} (body : dataset val → A → result (dataset val))
    xs data_set g :
  (∀ s x s', body s x = Ok s' → same_layout s s') →
  for_each xs body data_set = Ok g → same_layout data_set g.
Proof.
  intros Hbody. revert data_set.
  induction xs as [|x xs IH]; intros data_set; simpl.
  - intros [= <-]. apply same_layout_refl.
  - rewrite bind_Ok. intros (s1 & H1 & H2).
    eapply same_layout_trans; [by eapply Hbody | by apply IH].
Qed.

Lemma copy_tile_same_layout dom data_set d g :
  copy_tile dom data_set d = Ok g → same_layout data_set g.
Proof.
  unfold copy_tile. rewrite bind_Ok. intros (mem & _ & H).
  apply bind_Ok in H as (tile & _ & H).
  eapply for_each_same_layout; [|exact H].
  intros s x s'. apply copy_variable_same_layout.
Qed.

Lemma aggregate_Ok tiles g :
  aggregate tiles = Ok g →
  ∃ d0 rest tmpl dom,
    tiles = d0 :: rest ∧ set_up_dataset d0 = Ok tmpl ∧
    get_extent d0 "d" = Ok dom ∧
    for_each tiles (copy_tile dom) tmpl = Ok g.
Proof.
  unfold aggregate. destruct tiles as [|d0 rest]; [done|]. simpl.
  rewrite bind_Ok. intros (tmpl & Htmpl & H).
  apply bind_Ok in H as (dom & Hdom & H).
  by exists d0, rest, tmpl, dom.
Qed.

Lemma same_layout_assoc g0 g v a :
  same_layout g0 g → assoc v (ds_variables g) = Some a →
  ∃ a0, assoc v (ds_variables g0) = Some a0 ∧
        da_dims a = da_dims a0 ∧
        shape (da_values a) = shape (da_values a0).
Proof.
  intros [_ H]. induction H as [|[k0 x0] [k x] l0 l Hx _ IH]; simpl; [done|].
  destruct Hx as [(Hname & Hdims & _) Hshape]. simpl in *. subst k.
  destruct (String.eqb_spec v k0); [|done].
  intros [= ->]. by exists x0.
Qed.

Lemma same_layout_assoc_r g0 g v a0 :
  same_layout g0 g → assoc v (ds_variables g0) = Some a0 →
  ∃ a, assoc v (ds_variables g) = Some a ∧
       da_dims a = da_dims a0 ∧
       shape (da_values a) = shape (da_values a0).
Proof.
  intros [_ H]. induction H as [|[k0 x0] [k x] l0 l Hx _ IH]; simpl; [done|].
  destruct Hx as [(Hname & Hdims & _) Hshape]. simpl in *. subst k.
  destruct (String.eqb_spec v k0); [|done].
  intros [= ->]. by exists x.
Qed.

(** X7. The aggregate has the global attributes of the first tile and the
    variables of the template, in the same order, with the same names,
    dimension names, attributes and shapes: the copies change cells only. *)
Theorem aggregate_keeps_layout (d0 : dataset val) rest g :
  aggregate (d0 :: rest) = Ok g →
  ∃ tmpl, set_up_dataset d0 = Ok tmpl ∧
          ds_attrs g = ds_attrs d0 ∧ same_layout tmpl g.
Proof.
  intros (d0' & rest' & tmpl & dom & [= <- <-] & Htmpl & _ & Hloop)%aggregate_Ok.
  exists tmpl. split; [done|].
  assert (Hlayout : same_layout tmpl g).
  { eapply for_each_same_layout; [|exact Hloop].
    intros s x s'. apply copy_tile_same_layout. }
  split; [|done]. destruct Hlayout as [-> _].
  by apply set_up_dataset_Ok in Htmpl as (? & ? & _ & -> & _).
Qed.

End DatasetFacts.


(** ** The cells of the aggregate *)

Section Cells.

Context {val : Type} `{!Dtype val}.
Implicit Types (d data_set g : dataset val) (var a : data_array val).

Lemma item_all_zero (z : ndarray val) idx : all_zero z → item z idx = zero.
Proof.
  intros Hz. unfold item. destruct (in_bounds _ _); [|done].
  destruct (cells z !! _) as [c|] eqn:Hc; [|done]. simpl.
  by apply (Forall_lookup_1 _ _ _ _ Hz Hc).
Qed.

Lemma copy_variable_cell dom mem tile data_set v var a plan :
  assoc v (ds_variables data_set) = Some a →
  plan_of (da_dims var) = Some plan →
  Forall3 (axis_ok dom mem tile) plan (shape (da_values a))
    (shape (da_values var)) →
  ∃ g a',
    copy_variable dom mem tile data_set (v, var) = Ok g ∧
    assoc v (ds_variables g) = Some a' ∧
    shape (da_values a') = shape (da_values a) ∧
    ∀ idx, in_bounds (shape (da_values a)) idx = true →
      item (da_values a') idx =
        if covered dom tile plan idx
        then item (da_values var) (source_index dom mem plan idx)
        else item (da_values a) idx.
Proof.
  intros Ha Hplan Hok. rewrite copy_variable_plan, Hplan.
  pose proof (axis_ok_fits _ _ _ _ _ _ Hok) as (Hdst & Hsrc & Hlens).
  pose proof (Forall2_length _ _ _ Hdst) as Hlen_dst.
  pose proof (Forall2_length _ _ _ Hsrc) as Hlen_src.
  destruct (copy_box (da_values a) (da_values var)
              (plan_slice dom tile <$> plan) (plan_slice mem tile <$> plan))
    as (new & Hcopy & Hshape & Hitem).
  { rewrite length_fmap. lia. }
  { rewrite length_fmap. lia. }
  { by rewrite !region_plan. }
  unfold assign, ds_get. rewrite Ha.
  destruct (getitem (da_values var) _) as [rhs|]; simpl in *; [|done].
  rewrite Hcopy. simpl.
  eexists _, _. split; [done|]. simpl. rewrite assoc_dict_set_eq.
  split; [done|]. split; [done|].
  intros idx Hidx. simpl. rewrite (Hitem idx Hidx), !region_plan by done.
  destruct (in_region_covered _ _ _ _ _ _ idx Hok Hidx) as [-> Hsource].
  destruct (covered dom tile plan idx); [|done]. by rewrite Hsource.
Qed.

Lemma copy_variable_frame dom mem tile data_set w var g v :
  copy_variable dom mem tile data_set (w, var) = Ok g → v ≠ w →
  assoc v (ds_variables g) = assoc v (ds_variables data_set).
Proof.
  rewrite copy_variable_plan. destruct (plan_of (da_dims var)).
  - intros (? & ? & ? & _ & _ & _ & ->)%assign_Ok Hne. simpl.
    by apply assoc_dict_set_ne.
  - by intros [= <-].
Qed.

Lemma for_each_frame dom mem tile (l : list (string * data_array val))
    data_set g v :
  v ∉ l.*1 →
  for_each l (copy_variable dom mem tile) data_set = Ok g →
  assoc v (ds_variables g) = assoc v (ds_variables data_set).
Proof.
  revert data_set. induction l as [|[w var] l IH]; intros data_set; simpl.
  - by intros _ [= <-].
  - intros [Hne Hv]%not_elem_of_cons. rewrite bind_Ok.
    intros (s1 & H1 & H2). rewrite (IH s1 Hv H2).
    by apply (copy_variable_frame _ _ _ _ _ _ _ _ H1).
Qed.

Lemma extent_of_Ok d section e : get_extent d section = Ok e → extent_of d section = e.
Proof. unfold extent_of. by intros ->. Qed.

(** One tile: a cell the tile covers gets the tile's value, any other cell
    keeps its value. *)
Lemma copy_tile_cell dom plan v data_set d g a :
  copy_tile dom data_set d = Ok g →
  tile_ready dom plan v (shape (da_values a)) d →
  assoc v (ds_variables data_set) = Some a →
  ∃ a', assoc v (ds_variables g) = Some a' ∧
    shape (da_values a') = shape (da_values a) ∧
    ∀ idx, in_bounds (shape (da_values a)) idx = true →
      item (da_values a') idx = paint dom plan v idx (item (da_values a) idx) d.
Proof.
  unfold copy_tile. rewrite bind_Ok. intros (mem & Hmem & H).
  apply bind_Ok in H as (tile & Htile & Hloop).
  intros (Hnodup & var & Hvar & Hplan & Hok) Ha.
  rewrite (extent_of_Ok _ _ _ Hmem), (extent_of_Ok _ _ _ Htile) in Hok.
  destruct (assoc_split _ _ _ Hnodup Hvar) as (l1 & l2 & Hl & Hl1 & Hl2).
  rewrite Hl, for_each_app in Hloop.
  apply bind_Ok in Hloop as (s1 & Hs1 & Hloop). simpl in Hloop.
  apply bind_Ok in Hloop as (s2 & Hs2 & Hloop).
  pose proof (for_each_frame _ _ _ _ _ _ v Hl1 Hs1) as Hv1.
  rewrite Ha in Hv1.
  destruct (copy_variable_cell dom mem tile s1 v var a plan Hv1 Hplan Hok)
    as (s2' & a' & Hcopy & Ha' & Hshape & Hitem).
  assert (s2' = s2) as -> by congruence.
  exists a'. rewrite (for_each_frame _ _ _ _ _ _ v Hl2 Hloop).
  split; [done|]. split; [done|].
  intros idx Hidx. rewrite (Hitem idx Hidx). unfold paint, tile_cell.
  by rewrite (extent_of_Ok _ _ _ Hmem), (extent_of_Ok _ _ _ Htile), Hvar.
Qed.

(** All tiles, in order. *)
Lemma copy_tiles_cell dom plan v tiles data_set g a :
  for_each tiles (copy_tile dom) data_set = Ok g →
  Forall (tile_ready dom plan v (shape (da_values a))) tiles →
  assoc v (ds_variables data_set) = Some a →
  ∃ a', assoc v (ds_variables g) = Some a' ∧
    shape (da_values a') = shape (da_values a) ∧
    ∀ idx, in_bounds (shape (da_values a)) idx = true →
      item (da_values a') idx =
        foldl (paint dom plan v idx) (item (da_values a) idx) tiles.
Proof.
  revert data_set a. induction tiles as [|d tiles IH]; intros data_set a; simpl.
  - intros [= <-] _ Ha. by exists a.
  - rewrite bind_Ok. intros (s1 & Hs1 & Hloop) [Hd Htiles]%Forall_cons Ha.
    destruct (copy_tile_cell _ _ _ _ _ _ _ Hs1 Hd Ha)
      as (a1 & Ha1 & Hshape1 & Hitem1).
    rewrite <- Hshape1 in Htiles.
    destruct (IH s1 a1 Hloop Htiles Ha1) as (a' & Ha' & Hshape' & Hitem').
    exists a'. split; [done|]. split; [congruence|].
    intros idx Hidx. rewrite Hitem' by congruence. by rewrite Hitem1.
Qed.

(** The last tile that covers the cell decides. *)
Lemma foldl_paint_last dom plan v idx (tiles : list (dataset val)) before :
  foldl (paint dom plan v idx) before tiles =
  match last (writers dom plan tiles idx) with
  | Some d => tile_cell d v (source_index dom (extent_of d "m") plan idx)
  | None => before
  end.
Proof.
  revert before. induction tiles as [|d tiles IH]; intros before; [done|].
  simpl. rewrite IH. unfold writers. rewrite filter_cons. unfold paint.
  destruct (covered dom (extent_of d "t") plan idx) eqn:Hd.
  - rewrite decide_True by done. rewrite last_cons.
    by destruct (last (filter _ tiles)).
  - by rewrite decide_False by (by intros [=]).
Qed.

Lemma template_zero d tmpl v a :
  NoDup (ds_variables d).*1 → set_up_dataset d = Ok tmpl →
  assoc v (ds_variables tmpl) = Some a → all_zero (da_values a).
Proof.
  intros Hnodup Htmpl Ha. unfold set_up_dataset in Htmpl.
  apply bind_Ok in Htmpl as ([[[[[ids ide] jds] jde] kds] kde] & _ & H).
  apply bind_Ok in H as ([[nz data] data_vars] & Hloop & Hnew).
  unfold new_dataset in Hnew. destruct (consistent_sizes _); [|done].
  injection Hnew as <-. simpl in Ha.
  pose proof (set_up_loop_layout d (ide - ids + 1) (jde - jds + 1) []
                (ds_variables d) (kde - kds + 1) None [] (nz, data, data_vars)
                Hnodup ltac:(done) ltac:(constructor) Hloop) as Hlayout.
  simpl in Hlayout. apply assoc_elem_of in Ha.
  apply list_elem_of_lookup in Ha as [i Hi].
  destruct (Forall2_lookup_r _ _ _ _ _ Hlayout Hi) as (e0 & _ & _ & Hzero).
  done.
Qed.

(** X8. In the aggregate, a cell of a variable holds the value of the last
    tile, in the order of the sorted file list, whose destination range
    covers the cell, read at the matching place of that tile's array; a
    cell no tile covers is zero.  This holds for every variable that each
    tile holds in an array the slices fit (so that nothing is clipped or
    broadcast). *)
Theorem last_writer_wins (d0 : dataset val) rest g v a plan :
  aggregate (d0 :: rest) = Ok g →
  assoc v (ds_variables g) = Some a →
  Forall (tile_ready (extent_of d0 "d") plan v (shape (da_values a)))
    (d0 :: rest) →
  ∀ idx, in_bounds (shape (da_values a)) idx = true →
    item (da_values a) idx =
      match last (writers (extent_of d0 "d") plan (d0 :: rest) idx) with
      | Some d =>
          tile_cell d v
            (source_index (extent_of d0 "d") (extent_of d "m") plan idx)
      | None => zero
      end.
Proof.
  intros (d0' & rest' & tmpl & dom & [= <- <-] & Htmpl & Hdom & Hloop)%aggregate_Ok
    Ha Hready idx Hidx.
  rewrite (extent_of_Ok _ _ _ Hdom) in *.
  assert (Hlayout : same_layout tmpl g).
  { eapply for_each_same_layout; [|exact Hloop].
    intros s x s'. apply copy_tile_same_layout. }
  destruct (same_layout_assoc _ _ _ _ Hlayout Ha) as (a0 & Ha0 & _ & Hshape0).
  rewrite Hshape0 in Hready, Hidx.
  destruct (copy_tiles_cell _ _ _ _ _ _ _ Hloop Hready Ha0)
    as (a' & Ha' & _ & Hitem).
  assert (a' = a) as -> by congruence.
  rewrite (Hitem idx Hidx), foldl_paint_last.
  destruct (last _); [done|].
  apply item_all_zero, (template_zero d0 tmpl v); [|done..].
  apply Forall_cons in Hready as [(Hnodup & _) _]. done.
Qed.

End Cells.


(** ** Tiles that partition the domain *)

Section Partition.

Context {val : Type} `{!Dtype val}.
Implicit Types (d data_set g : dataset val) (var a : data_array val).







(** X10. A rank-2 variable is copied without widening, so a column of the
    global array beyond the end of the domain, such as the extra column of
    a variable staggered in x, is written by no tile whose extent lies
    within the domain: it keeps the zero of the template. *)
Theorem column_beyond_domain_stays_zero (d0 : dataset val) rest g v a :
  let dom := extent_of d0 "d" in
  let plan := [Mapped AxisJ 0; Mapped AxisI 0] in
  aggregate (d0 :: rest) = Ok g →
  assoc v (ds_variables g) = Some a →
  Forall (tile_ready dom plan v (shape (da_values a))) (d0 :: rest) →
  Forall (λ d, ext_end (extent_of d "t") AxisI ≤ ext_end dom AxisI)
    (d0 :: rest) →
  ∀ gy gx,
    in_bounds (shape (da_values a)) [gy; gx] = true →
    ext_end dom AxisI < Z.of_nat gx + ext_start dom AxisI →
    item (da_values a) [gy; gx] = zero.
Proof.
  intros dom plan Hagg Ha Hready Hwithin gy gx Hidx Hgx.
  pose proof Hagg as
    (d0' & rest' & tmpl & dom' & [= <- <-] & Htmpl & Hdom' & Hloop)%aggregate_Ok.
  assert (Hlayout : same_layout tmpl g).
  { eapply for_each_same_layout; [|exact Hloop].
    intros s x s'. apply copy_tile_same_layout. }
  destruct (same_layout_assoc _ _ _ _ Hlayout Ha) as (a0 & Ha0 & _ & Hshape0).
  pose proof Hready as Hready'. rewrite Hshape0 in Hready'.
  destruct (copy_tiles_cell dom' plan v (d0 :: rest) tmpl g a0 Hloop)
    as (a' & Ha' & _ & Hitem);
    [by rewrite <- (extent_of_Ok _ _ _ Hdom') | done |].
  assert (a' = a) as -> by congruence.
  rewrite <- (extent_of_Ok _ _ _ Hdom') in Hitem. fold dom in Hitem.
  rewrite Hitem, foldl_paint_last by (by rewrite <- Hshape0).
  assert (writers dom plan (d0 :: rest) [gy; gx] = []) as ->.
  { unfold writers. clear -Hwithin Hgx.
    induction Hwithin as [|d l Hd _ IH]; [done|].
    rewrite filter_cons, IH. rewrite decide_False; [done|].
    unfold covered, plan. simpl. intros H.
    apply andb_true_iff in H as [_ H].
    apply andb_true_iff in H as [H _].
    apply andb_true_iff in H as [_ H%Z.leb_le]. lia. }
  simpl. apply item_all_zero, (template_zero d0 tmpl v); [|done..].
  by apply Forall_cons in Hready as [(Hnodup & _) _].
Qed.

End Partition.


Section SingleTile.

Context {val : Type} `{!Dtype val}.

Lemma source_index_same (dom : extent) (plan : list axis_plan) (idx : list nat) :
  length idx = length plan → source_index dom dom plan idx = idx.
Proof.
  revert idx. induction plan as [|p plan IH]; intros [|i idx]; simpl;
    try done.
  intros [= Hlen]. unfold source_index in *. simpl. rewrite IH by done.
  f_equal. destruct p; simpl; lia.
Qed.

(** X12. For a group of one tile whose memory extent is the domain extent,
    every cell of a variable that the tile covers is the tile's cell at the
    same index: where the tile has no halo, the index mapping is the
    identity. *)
Theorem single_tile_identity (d : dataset val) g v a plan :
  aggregate [d] = Ok g →
  assoc v (ds_variables g) = Some a →
  tile_ready (extent_of d "d") plan v (shape (da_values a)) d →
  extent_of d "m" = extent_of d "d" →
  ∀ idx, in_bounds (shape (da_values a)) idx = true →
    covered (extent_of d "d") (extent_of d "t") plan idx = true →
    item (da_values a) idx = tile_cell d v idx.
Proof.
  intros Hagg Ha Hready Hmem idx Hidx Hcov.
  pose proof Hagg as
    (d0' & rest' & tmpl & dom & [= <- <-] & Htmpl & Hdom & Hloop)%aggregate_Ok.
  assert (Hlayout : same_layout tmpl g).
  { eapply for_each_same_layout; [|exact Hloop].
    intros s x s'. apply copy_tile_same_layout. }
  destruct (same_layout_assoc _ _ _ _ Hlayout Ha) as (a0 & Ha0 & _ & Hshape0).
  rewrite (extent_of_Ok _ _ _ Hdom) in *.
  pose proof Hready as Hready'. rewrite Hshape0 in Hready'.
  destruct (copy_tiles_cell dom plan v [d] tmpl g a0 Hloop)
    as (a' & Ha' & _ & Hitem); [by constructor | done |].
  assert (a' = a) as -> by congruence.
  rewrite Hitem by (by rewrite <- Hshape0). simpl. unfold paint.
  rewrite Hcov, Hmem, source_index_same; [done|].
  destruct Hready as (_ & var & _ & _ & Hok).
  apply in_bounds_Forall2, Forall2_length in Hidx. rewrite Hidx.
  clear -Hok. induction Hok; simpl; congruence.
Qed.

End SingleTile.


(** ** When the aggregation returns *)

Section Success.

Context {val : Type} `{!Dtype val}.
Implicit Types (d data_set g tmpl : dataset val) (var a : data_array val).

Lemma copy_variables_succeed dom mem tile tmpl
    (l : list (string * data_array val)) data_set :
  same_layout tmpl data_set →
  Forall (λ entry : string * data_array val,
    match plan_of (da_dims entry.2) with
    | Some plan =>
        ∃ a0, assoc entry.1 (ds_variables tmpl) = Some a0 ∧
              Forall3 (axis_ok dom mem tile) plan (shape (da_values a0))
                (shape (da_values entry.2))
    | None => True
    end) l →
  ∃ g, for_each l (copy_variable dom mem tile) data_set = Ok g ∧
       same_layout tmpl g.
Proof.
  intros Hlayout Hl. revert data_set Hlayout.
  induction Hl as [|[v var] l Hentry _ IH]; intros data_set Hlayout; simpl.
  - by exists data_set.
  - assert (∃ s1, copy_variable dom mem tile data_set (v, var) = Ok s1)
      as [s1 Hs1].
    { simpl in Hentry.
      destruct (plan_of (da_dims var)) as [plan|] eqn:Hplan.
      - destruct Hentry as (a0 & Ha0 & Hok).
        destruct (same_layout_assoc_r _ _ _ _ Hlayout Ha0)
          as (a & Ha & _ & Hshape).
        rewrite <- Hshape in Hok.
        destruct (copy_variable_cell dom mem tile data_set v var a plan
                    Ha Hplan Hok) as (s1 & _ & Hs1 & _).
        by exists s1.
      - exists data_set. by rewrite copy_variable_plan, Hplan. }
    rewrite Hs1. simpl. apply IH.
    eapply same_layout_trans; [exact Hlayout|].
    by apply copy_variable_same_layout in Hs1.
Qed.

Lemma copy_tiles_succeed dom tmpl (tiles : list (dataset val)) data_set :
  same_layout tmpl data_set →
  Forall (tile_fits dom tmpl) tiles →
  ∃ g, for_each tiles (copy_tile dom) data_set = Ok g.
Proof.
  intros Hlayout Htiles. revert data_set Hlayout.
  induction Htiles as [|d tiles (mem & tile & Hmem & Htile & Hfit) _ IH];
    intros data_set Hlayout.
  - by exists data_set.
  - destruct (copy_variables_succeed dom mem tile tmpl (ds_variables d)
                data_set Hlayout Hfit) as (s1 & Hs1 & Hlayout1).
    assert (Hcopy : copy_tile dom data_set d = Ok s1).
    { unfold copy_tile. rewrite Hmem. simpl. rewrite Htile. exact Hs1. }
    cbn [for_each]. rewrite Hcopy. by apply IH.
Qed.

(** X11. The aggregation returns a dataset whenever the template builds and
    every tile of the group has its memory and tile extents and holds each
    variable of rank 2 to 4 under a name of the template, in an array that
    the slices of the copy fit. *)
Theorem aggregate_succeeds (d0 : dataset val) rest tmpl dom :
  set_up_dataset d0 = Ok tmpl →
  get_extent d0 "d" = Ok dom →
  Forall (tile_fits dom tmpl) (d0 :: rest) →
  ∃ g, aggregate (d0 :: rest) = Ok g.
Proof.
  intros Htmpl Hdom Htiles. unfold aggregate. simpl.
  rewrite Htmpl. simpl. rewrite Hdom. simpl.
  apply (copy_tiles_succeed dom tmpl (d0 :: rest) tmpl);
    [apply same_layout_refl | done].
Qed.

End Success.


(** ** Instances *)

Lemma output_overwrites_first_file_witness :
  ∃ g, files (agg_file world_single "restart_a").2 =
         <["restart_a" := NetCDF g]> (files world_single).
Proof.
  apply output_overwrites_first_file.
  - vm_compute. reflexivity.
  - vm_compute. reflexivity.
Defined.

Lemma output_matches_pattern_witness :
  str_replace "out_001_a" "_001_" "_"
    ∈ glob (agg_file world_complete "out_001_a").2
        (str_replace "out_001_a" "_001_" "*").
Proof.
  apply output_matches_pattern; vm_compute; reflexivity.
Defined.

Lemma empty_group_raises_witness :
  agg_file world_complete "absent_001_x" =
    (Raise "IndexError", print world_complete "absent_001_x").
Proof.
  apply empty_group_raises. vm_compute. reflexivity.
Defined.

Lemma unknown_variable_raises_witness :
  copy_variable (0, 3, 0, 1, 0, 0) (0, 3, 0, 1, 0, 0) (0, 3, 0, 1, 0, 0)
    soil_tile ("p", DataArray ["lat"; "lon"] ∅ (numbered [2; 4]%nat 100))
  = Raise "KeyError".
Proof.
  apply unknown_variable_raises.
  - reflexivity.
  - simpl. lia.
  - reflexivity.
Defined.

Lemma aggregate_keeps_layout_witness :
  ∃ tmpl, set_up_dataset left_tile = Ok tmpl ∧
          ds_attrs left_right_aggregate = ds_attrs left_tile ∧
          same_layout tmpl left_right_aggregate.
Proof.
  apply (aggregate_keeps_layout left_tile [right_tile]).
  vm_compute. reflexivity.
Defined.



Lemma left_tile_ready_u :
  tile_ready (0, 3, 0, 1, 0, 0) [Whole; Mapped AxisJ 0; Mapped AxisI 1] "u"
    [1; 2; 5]%nat left_tile.
Proof.
  split; [apply (bool_decide_unpack _); by vm_compute|].
  eexists. split; [reflexivity|]. split; [reflexivity|].
  change (extent_of left_tile "m") with (0, 2, 0, 1, 0, 0).
  change (extent_of left_tile "t") with (0, 1, 0, 1, 0, 0).
  repeat constructor; simpl; lia.
Qed.

Lemma right_tile_ready_u :
  tile_ready (0, 3, 0, 1, 0, 0) [Whole; Mapped AxisJ 0; Mapped AxisI 1] "u"
    [1; 2; 5]%nat right_tile.
Proof.
  split; [apply (bool_decide_unpack _); by vm_compute|].
  eexists. split; [reflexivity|]. split; [reflexivity|].
  change (extent_of right_tile "m") with (1, 3, 0, 1, 0, 0).
  change (extent_of right_tile "t") with (2, 3, 0, 1, 0, 0).
  repeat constructor; simpl; lia.
Qed.

(** With the right tile first in the group, the cell of [u] at the seam
    (global column 2, which the right tile owns) ends with the value of the
    left tile, the last of the two tiles that write it. *)
Lemma last_writer_wins_witness :
  writers (0, 3, 0, 1, 0, 0) [Whole; Mapped AxisJ 0; Mapped AxisI 1]
    [right_tile; left_tile] [0; 0; 2]%nat = [right_tile; left_tile] ∧
  item (da_values (variable_of right_left_aggregate "u")) [0; 0; 2]%nat =
    tile_cell left_tile "u" [0; 0; 2]%nat ∧
  tile_cell left_tile "u" [0; 0; 2]%nat = 202 ∧
  tile_cell right_tile "u" [0; 0; 1]%nat = 401.
Proof.
  split; [by vm_compute|]. split; [|by vm_compute].
  rewrite (last_writer_wins right_tile [left_tile] right_left_aggregate "u"
             (variable_of right_left_aggregate "u")
             [Whole; Mapped AxisJ 0; Mapped AxisI 1]).
  - by vm_compute.
  - vm_compute. reflexivity.
  - reflexivity.
  - change (extent_of right_tile "d") with (0, 3, 0, 1, 0, 0).
    apply Forall_cons. split; [exact right_tile_ready_u|].
    apply Forall_cons. split; [exact left_tile_ready_u | constructor].
  - reflexivity.
Defined.



Lemma edge_tile_ready :
  tile_ready (0, 3, 0, 1, 0, 0) [Mapped AxisJ 0; Mapped AxisI 0] "u10"
    [2; 5]%nat edge_tile.
Proof.
  split; [apply (bool_decide_unpack _); by vm_compute|].
  eexists. split; [reflexivity|]. split; [reflexivity|].
  change (extent_of edge_tile "m") with (0, 3, 0, 1, 0, 0).
  change (extent_of edge_tile "t") with (0, 3, 0, 1, 0, 0).
  repeat constructor; simpl; lia.
Qed.

(** The field [u10] of [edge_tile] is staggered in x: its template has five
    columns for a domain of four, and the fifth stays zero although the
    tile, which covers the whole domain, has 104 there. *)
Lemma column_beyond_domain_stays_zero_witness :
  shape (da_values (variable_of edge_aggregate "u10")) = [2; 5]%nat ∧
  item (da_values (variable_of edge_tile "u10")) [0; 4]%nat = 104 ∧
  item (da_values (variable_of edge_aggregate "u10")) [0; 4]%nat = 0.
Proof.
  split; [reflexivity|]. split; [by vm_compute|].
  apply (column_beyond_domain_stays_zero edge_tile [] edge_aggregate "u10"
           (variable_of edge_aggregate "u10")).
  - vm_compute. reflexivity.
  - reflexivity.
  - change (extent_of edge_tile "d") with (0, 3, 0, 1, 0, 0).
    apply Forall_cons. split; [exact edge_tile_ready | constructor].
  - repeat constructor. vm_compute. discriminate.
  - reflexivity.
  - vm_compute. reflexivity.
Defined.

Lemma aggregate_succeeds_witness :
  ∃ g, aggregate [left_tile; right_tile] = Ok g.
Proof.
  eapply (aggregate_succeeds left_tile [right_tile] _ (0, 3, 0, 1, 0, 0)).
  - vm_compute. reflexivity.
  - vm_compute. reflexivity.
  - apply Forall_cons. split; [|apply Forall_cons; split; [|constructor]].
    + exists (0, 2, 0, 1, 0, 0), (0, 1, 0, 1, 0, 0).
      split; [by vm_compute|]. split; [by vm_compute|].
      apply Forall_cons. split.
      { eexists. split; [reflexivity|]. repeat constructor; simpl; lia. }
      apply Forall_cons. split; [|constructor].
      eexists. split; [reflexivity|]. repeat constructor; simpl; lia.
    + exists (1, 3, 0, 1, 0, 0), (2, 3, 0, 1, 0, 0).
      split; [by vm_compute|]. split; [by vm_compute|].
      apply Forall_cons. split.
      { eexists. split; [reflexivity|]. repeat constructor; simpl; lia. }
      apply Forall_cons. split; [|constructor].
      eexists. split; [reflexivity|]. repeat constructor; simpl; lia.
Defined.

Lemma single_tile_identity_witness :
  item (da_values (variable_of edge_aggregate "u10")) [1; 3]%nat =
    tile_cell edge_tile "u10" [1; 3]%nat ∧
  tile_cell edge_tile "u10" [1; 3]%nat = 108.
Proof.
  split; [|by vm_compute].
  apply (single_tile_identity edge_tile edge_aggregate "u10"
           (variable_of edge_aggregate "u10")
           [Mapped AxisJ 0; Mapped AxisI 0]).
  - vm_compute. reflexivity.
  - reflexivity.
  - change (extent_of edge_tile "d") with (0, 3, 0, 1, 0, 0).
    exact edge_tile_ready.
  - reflexivity.
  - reflexivity.
  - by vm_compute.
Defined.



(** ** The rank dispatch of the copy *)

Section RankDispatch.

Context {val : Type} `{!Dtype val}.
Implicit Types (d data_set g : dataset val) (var a : data_array val).

Lemma widened_0 (r : Z * Z) : widened r 0 = r.
Proof. destruct r. unfold widened. simpl. f_equal. lia. Qed.

(** The tile covers a position of a mapped axis when the position lies in
    the global range of lines 114 to 116, its end moved by the offset. *)
Lemma covers_in_range dom tile ax widen i :
  covers dom tile (Mapped ax widen) i =
  in_range (widened (global_range (ext_start dom ax) (ext_start tile ax)
                       (ext_end tile ax)) widen) i.
Proof.
  unfold covers, in_range, widened, global_range. simpl.
  apply eq_iff_eq_true. rewrite !andb_true_iff, !Z.leb_le, Z.ltb_lt. lia.
Qed.

Lemma source_matching dom mem tile ax widen i :
  source dom mem (Mapped ax widen) i =
  matching (widened (global_range (ext_start dom ax) (ext_start tile ax)
                       (ext_end tile ax)) widen)
           (widened (local_range (ext_start mem ax) (ext_start tile ax)
                       (ext_end tile ax)) widen) i.
Proof.
  unfold source, matching, widened, global_range, local_range. simpl.
  f_equal. lia.
Qed.

Lemma range_fits_global dom tile ax widen n :
  range_fits (widened (global_range (ext_start dom ax) (ext_start tile ax)
                         (ext_end tile ax)) widen) n →
  fits dom tile (Mapped ax widen) n.
Proof. unfold range_fits, widened, global_range, fits. simpl. lia. Qed.

Lemma range_fits_local mem tile ax widen n :
  range_fits (widened (local_range (ext_start mem ax) (ext_start tile ax)
                         (ext_end tile ax)) widen) n →
  fits mem tile (Mapped ax widen) n.
Proof. unfold range_fits, widened, local_range, fits. simpl. lia. Qed.

Local Ltac axes_ok :=
  repeat (apply Forall3_cons;
            [first [done
                   | split; [apply range_fits_global | apply range_fits_local];
                     rewrite ?widened_0; done]|]);
  apply Forall3_nil.



(** C6. A rank-2 variable is copied with the x and y ranges of the index
    mapping as they are, on the tile's array and on the global array: the
    staggering offsets of its dimension names do not widen them.  So when
    the ranges lie within the two arrays, the cells of the global array in
    the ranges [ys:ye] and [xs:xe] get the cells of the tile's array at the
    matching positions of [yts:yte] and [xts:xte], and every other cell,
    the row [ye] and the column [xe] included, keeps the value it had. *)
Theorem rank2_copy_unwidened
    (ids ide jds jde kds kde ims ime jms jme kms kme its ite jts jte kts kte : Z)
    (data_set : dataset val) (v : string) (var : data_array val) :
  length (da_dims var) = 2%nat →
  let copy :=
    copy_variable (ids, ide, jds, jde, kds, kde) (ims, ime, jms, jme, kms, kme)
      (its, ite, jts, jte, kts, kte) data_set (v, var) in
  let ys := global_range jds jts jte in
  let xs := global_range ids its ite in
  let yts := local_range jms jts jte in
  let xts := local_range ims its ite in
  copy = assign data_set v [from_to ys.1 ys.2; from_to xs.1 xs.2]
           (da_values var) [from_to yts.1 yts.2; from_to xts.1 xts.2] ∧
  ∀ (a : data_array val) (ny nx my mx : nat),
    assoc v (ds_variables data_set) = Some a →
    shape (da_values a) = [ny; nx]%nat →
    shape (da_values var) = [my; mx]%nat →
    range_fits ys ny → range_fits yts my →
    range_fits xs nx → range_fits xts mx →
    ∃ g a',
      copy = Ok g ∧
      assoc v (ds_variables g) = Some a' ∧
      shape (da_values a') = [ny; nx]%nat ∧
      ∀ gy gx : nat, (gy < ny)%nat → (gx < nx)%nat →
        item (da_values a') [gy; gx] =
          if in_range ys gy && in_range xs gx
          then item (da_values var) [matching ys yts gy; matching xs xts gx]
          else item (da_values a) [gy; gx].
Proof.
  intros Hrank copy ys xs yts xts. split.
  - subst copy ys xs yts xts.
    unfold copy_variable, local_range, global_range.
    destruct (get_dim_offset (da_dims var)) as [x_off y_off].
    rewrite Hrank. simpl. by destruct (assign _ _ _ _ _).
  - intros a ny nx my mx Ha Hsh Hvsh Hys Hyts Hxs Hxts.
    destruct (copy_variable_cell (ids, ide, jds, jde, kds, kde)
                (ims, ime, jms, jme, kms, kme) (its, ite, jts, jte, kts, kte)
                data_set v var a [Mapped AxisJ 0; Mapped AxisI 0] Ha)
      as (g & a' & Hcopy & Ha' & Hshape & Hcells).
    { unfold plan_of. destruct (get_dim_offset _).
      by destruct (da_dims var) as [|d0 [|d1 [|d2 rest]]]. }
    { rewrite Hsh, Hvsh. axes_ok. }
    exists g, a'. split; [done|]. split; [done|]. split; [congruence|].
    intros gy gx Hgy Hgx. rewrite Hcells.
    + unfold covered, source_index. cbn [zip zip_with forallb fst snd].
      rewrite !covers_in_range, andb_true_r.
      rewrite (source_matching _ (ims, ime, jms, jme, kms, kme)
                 (its, ite, jts, jte, kts, kte) AxisJ).
      rewrite (source_matching _ (ims, ime, jms, jme, kms, kme)
                 (its, ite, jts, jte, kts, kte) AxisI).
      by rewrite !widened_0.
    + rewrite Hsh. simpl. rewrite andb_true_r.
      apply andb_true_iff. split; by apply Nat.ltb_lt.
Qed.


End RankDispatch.

(** The field [u10] of [inner_tile] is staggered in x, and the tile owns
    the columns 1 and 2: the copy writes these two columns and leaves
    column 3, where the tile has 103, as it was. *)
Lemma rank2_copy_unwidened_witness :
  get_dim_offset ["lat"; "lon_u"] = (1, 0) ∧
  item (da_values (variable_of inner_tile "u10")) [0; 3]%nat = 103 ∧
  ∃ g a',
    copy_variable (0, 3, 0, 1, 0, 2) (0, 3, 0, 1, 0, 2) (1, 2, 0, 1, 1, 2)
      inner_global ("u10", variable_of inner_tile "u10") = Ok g ∧
    assoc "u10" (ds_variables g) = Some a' ∧
    shape (da_values a') = [2; 5]%nat ∧
    item (da_values a') [0; 0]%nat = 0 ∧
    item (da_values a') [0; 1]%nat = 101 ∧
    item (da_values a') [0; 2]%nat = 102 ∧
    item (da_values a') [0; 3]%nat = 3 ∧
    item (da_values a') [1; 2]%nat = 107.
Proof.
  split; [reflexivity|]. split; [by vm_compute|].
  destruct (rank2_copy_unwidened 0 3 0 1 0 2 0 3 0 1 0 2 1 2 0 1 1 2
              inner_global "u10" (variable_of inner_tile "u10") eq_refl)
    as [_ Hcells].
  destruct (Hcells (variable_of inner_global "u10") 2 5 2 5)%nat
    as (g & a' & Hcopy & Ha' & Hshape & Hitem);
    [reflexivity | reflexivity | reflexivity
    | vm_compute; intuition discriminate ..|].
  exists g, a'. split; [exact Hcopy|]. split; [exact Ha'|].
  split; [exact Hshape|].
  rewrite !Hitem by lia. by vm_compute.
Defined.



(** ** A group of tiles that partitions the domain *)

Section Reference.

Context {val : Type} `{!Dtype val}.
Implicit Types (w : world val) (d g tmpl : dataset val) (a : data_array val).


End Reference.




